(** * AI-Chat-Application: the request handlers of [server.js]

    [server.js] holds three copies of one Express server that differ in
    where conversations and messages are kept: flat JSON files
    (lines 1-377), SQLite tables (lines 379-728) and process memory
    (lines 730-1063).  The chat handler, the provider-error mapping and
    the model selection are textually the same in the three copies.

    The handlers are embedded as programs of a small state-and-exception
    monad over a [World]; what JavaScript leaves to its environment
    (uuidv4, the clock, the completion provider) is drawn from the [Env]
    of the world. *)

From Stdlib Require Import ZArith String Ascii List Decimal DecimalString
  DecimalPos DecimalN Lia.
From stdpp Require Import base option gmap strings list sorting.

Local Open Scope string_scope.
Local Open Scope Z_scope.
Local Open Scope list_scope.

(** ** JavaScript primitives used by the handlers *)

Module JS.

(** Values a property read on a plain object can produce here. *)
Inductive value :=
| Undefined
| Str (s : string)
| Function (name : string)
| Object (name : string).

(** ToBoolean, as used by [if (x)] and [x || y]. *)
Definition truthy (v : value) : bool :=
  match v with
  | Undefined => false
  | Str s => negb (String.eqb s "")
  | Function _ | Object _ => true
  end.

(** The properties every object literal inherits from [Object.prototype]. *)
Definition Object_prototype (key : string) : value :=
  if String.eqb key "constructor" then Function "Object"
  else if String.eqb key "__proto__" then Object "Object.prototype"
  else if existsb (String.eqb key)
            ["toString"; "toLocaleString"; "valueOf"; "hasOwnProperty";
             "isPrototypeOf"; "propertyIsEnumerable"; "__defineGetter__";
             "__defineSetter__"; "__lookupGetter__"; "__lookupSetter__"]
       then Function key
  else Undefined.

(** [obj[key]] on an object literal whose own properties are [own]: an own
    property first, then the prototype chain. *)
Definition get (own : gmap string string) (key : string) : value :=
  match own !! key with
  | Some s => Str s
  | None => Object_prototype key
  end.

(** [Object.keys] order is insertion order, so the literal is kept as a list
    and the map is built from it. *)
Definition literal (props : list (string * string)) : gmap string string :=
  list_to_map props.

(** *** parseInt *)

(** A string is a sequence of code units below 256: Node decodes the bytes
    of an HTTP header value as Latin-1, so byte 160 is U+00A0.  Among these
    the white space [parseInt] skips (WhiteSpace and LineTerminator of
    ECMAScript) is tab, LF, VT, FF, CR, space and the no-break space
    U+00A0. *)
Definition is_whitespace (c : ascii) : bool :=
  let n := nat_of_ascii c in
  ((9 <=? n) && (n <=? 13) || (n =? 32) || (n =? 160))%nat.

Fixpoint trim_start (s : string) : string :=
  match s with
  | String c rest => if is_whitespace c then trim_start rest else s
  | EmptyString => s
  end.

(** The value of [c] as a digit of the given radix, if it is one. *)
Definition digit (radix : Z) (c : ascii) : option Z :=
  let n := Z.of_nat (nat_of_ascii c) in
  let v := if ((48 <=? n) && (n <=? 57))%Z then Some (n - 48)
           else if ((97 <=? n) && (n <=? 122))%Z then Some (n - 87)
           else if ((65 <=? n) && (n <=? 90))%Z then Some (n - 55)
           else None in
  match v with
  | Some d => if (d <? radix)%Z then Some d else None
  | None => None
  end.

(** The longest prefix of [s] made of digits, as digit values. *)
Fixpoint digits (radix : Z) (s : string) : list Z :=
  match s with
  | String c rest =>
      match digit radix c with
      | Some d => d :: digits radix rest
      | None => []
      end
  | EmptyString => []
  end.

Definition step (radix acc d : Z) : Z := acc * radix + d.

Definition number_of (radix : Z) (ds : list Z) : Z :=
  fold_left (step radix) ds 0.

Definition strip_sign (s : string) : Z * string :=
  match s with
  | String "-" rest => (-1, rest)
  | String "+" rest => (1, rest)
  | _ => (1, s)
  end.

Definition strip_hex_prefix (s : string) : Z * string :=
  match s with
  | String "0" (String "x" rest) | String "0" (String "X" rest) => (16, rest)
  | _ => (10, s)
  end.

(** [parseInt(s)] with no radix argument; [None] is NaN.  JavaScript numbers
    are doubles: the result is the exact integer up to
    [MAX_SAFE_INTEGER], which is the range the theorems below speak of. *)
Definition parseInt_string (s : string) : option Z :=
  let '(sign, s1) := strip_sign (trim_start s) in
  let '(radix, s2) := strip_hex_prefix s1 in
  match digits radix s2 with
  | [] => None
  | ds => Some (sign * number_of radix ds)
  end.

(** [parseInt(v)] where [v] may be [undefined]: the argument is first
    converted with ToString. *)
Definition parseInt (v : option string) : option Z :=
  parseInt_string (match v with Some s => s | None => "undefined" end).

Definition MAX_SAFE_INTEGER : Z := 2 ^ 53 - 1.

(** [x || 0] on a number: NaN and 0 are falsy. *)
Definition or_zero (x : option Z) : Z :=
  match x with
  | Some n => n
  | None => 0
  end.

(** [Math.ceil(a / b)] and [Math.floor(a / b)] for [b > 0]. *)
Definition ceil_div (a b : Z) : Z := - ((- a) / b).
Definition floor_div (a b : Z) : Z := a / b.

(** Number to string, as a template literal does it for an integer. *)
Definition Number_toString (n : Z) : string :=
  NilZero.string_of_int (Z.to_int n).

(** [hay.includes(needle)] *)
Fixpoint includes (needle hay : string) : bool :=
  String.prefix needle hay ||
  match hay with
  | String _ rest => includes needle rest
  | EmptyString => false
  end.

End JS.

(** ** Data model *)

(** Records are JavaScript objects: a property that an object may lack is an
    [option]. *)

Module Conversation.
Record t := mk {
  id : string;
  title : option string;
  created_at : option string
}.
End Conversation.

(** In the in-memory copy the property [conversation_id] is spelled
    [conversationId]; the record is the same. *)
Module Message.
Record t := mk {
  id : string;
  conversation_id : option string;
  role : string;
  content : option string;
  created_at : string;
  message_type : option string
}.
End Message.

(** The body of POST /api/chat: [{ message, conversationId, files }]. *)
Module ChatBody.
Record File := { data : string }.
Record t := mk {
  message : option string;
  conversationId : option string;
  files : option (list File)
}.
End ChatBody.

(** What is sent to [chat.completions.create]. *)
Module Prompt.
Inductive part :=
| text (text : string)
| image_url (url : string).

Inductive content :=
| plain (message : option string)
| parts (ps : list part).

Record message := { role : string; content_of : content }.

Record request := {
  model : JS.value;
  messages : list message;
  max_tokens : Z
}.
End Prompt.

(** What [chat.completions.create] resolves to. *)
Module Completion.
Record message := { content : option string }.
Record choice := { message_of : message }.
Record t := { choices : list choice }.
End Completion.

(** Exceptions that reach a handler's [catch]: an error thrown by the
    provider's client, with its [status] and [headers] when it has them, or
    a TypeError raised by a property read on [null] or [undefined]. *)
Inductive error :=
| APIError (status : option Z) (headers : option (gmap string string))
| TypeError (what : string).

Definition error_status (e : error) : option Z :=
  match e with
  | APIError status _ => status
  | TypeError _ => None
  end.

(** [error.headers?.['retry-after']] *)
Definition retry_after_header (e : error) : option string :=
  match e with
  | APIError _ (Some headers) => headers !! "retry-after"
  | _ => None
  end.

(** The JSON bodies the handlers send. *)
Inductive Body :=
| Conversations (l : list Conversation.t)
| ConversationBody (c : Conversation.t)
| Messages (l : list Message.t)
| WrappedMessages (l : list Message.t)
| ChatReply (message : option string) (conversationId : option string)
| Success
| ModelSelected (currentModel : JS.value)
| Models (keys : list string)
| Failure (error : string)
| FailureCode (error : string) (code : string)
| RateLimit (error : string) (retryAfter : Z) (code : string).

Record Response := { status : Z; body : Body }.

(** [res.json(b)] and [res.status(s).json(b)]. *)
Definition json (b : Body) : Response := {| status := 200; body := b |}.
Definition status_json (s : Z) (b : Body) : Response :=
  {| status := s; body := b |}.

(** ** The world a handler runs in *)

(** The environment: the values [uuidv4()] and [new Date().toISOString()]
    will return, in the order of the calls, what the provider answers to the
    n-th completion request, and the requests sent so far. *)
Record Env := {
  uuid_source : nat -> string;
  uuid_calls : nat;
  clock : nat -> string;
  clock_reads : nat;
  provider : nat -> Prompt.request -> error + Completion.t;
  api_calls : list Prompt.request
}.

(** The process: the environment, the module-level [currentModel] and the
    store of the variant. *)
Record World (St : Type) := {
  env : Env;
  currentModel : JS.value;
  store : St
}.
Arguments env {St} _.
Arguments currentModel {St} _.
Arguments store {St} _.

Definition with_env {St} (e : Env) (w : World St) : World St :=
  {| env := e; currentModel := currentModel w; store := store w |}.
Definition with_model {St} (m : JS.value) (w : World St) : World St :=
  {| env := env w; currentModel := m; store := store w |}.
Definition with_store {St} (s : St) (w : World St) : World St :=
  {| env := env w; currentModel := currentModel w; store := s |}.

(** A handler body: it ends with a value or with a thrown exception. *)
Definition M (St A : Type) : Type := World St -> (error + A) * World St.

#[global] Instance M_ret St : MRet (M St) := fun A a w => (inr a, w).
#[global] Instance M_bind St : MBind (M St) := fun A B f m w =>
  match m w with
  | (inr a, w') => f a w'
  | (inl e, w') => (inl e, w')
  end.

Definition throw {St A} (e : error) : M St A := fun w => (inl e, w).

(** [try { body } catch (error) { handler }] *)
Definition try_catch {St A} (body : M St A) (handler : error -> M St A) : M St A :=
  fun w =>
    match body w with
    | (inr a, w') => (inr a, w')
    | (inl e, w') => handler e w'
    end.

Definition get_store {St} : M St St := fun w => (inr (store w), w).
Definition set_store {St} (s : St) : M St unit := fun w => (inr tt, with_store s w).
Definition get_model {St} : M St JS.value := fun w => (inr (currentModel w), w).
Definition set_model {St} (m : JS.value) : M St unit :=
  fun w => (inr tt, with_model m w).

(** The environment after one more [uuidv4()], one more clock read, one
    more completion request. *)
Definition after_uuid (e : Env) : Env :=
  {| uuid_source := uuid_source e; uuid_calls := S (uuid_calls e);
     clock := clock e; clock_reads := clock_reads e;
     provider := provider e; api_calls := api_calls e |}.
Definition after_clock (e : Env) : Env :=
  {| uuid_source := uuid_source e; uuid_calls := uuid_calls e;
     clock := clock e; clock_reads := S (clock_reads e);
     provider := provider e; api_calls := api_calls e |}.
Definition after_call (request : Prompt.request) (e : Env) : Env :=
  {| uuid_source := uuid_source e; uuid_calls := uuid_calls e;
     clock := clock e; clock_reads := clock_reads e;
     provider := provider e; api_calls := api_calls e ++ [request] |}.

(** [uuidv4()] *)
Definition uuidv4 {St} : M St string := fun w =>
  (inr (uuid_source (env w) (uuid_calls (env w))),
   with_env (after_uuid (env w)) w).

(** [new Date().toISOString()] *)
Definition now {St} : M St string := fun w =>
  (inr (clock (env w) (clock_reads (env w))),
   with_env (after_clock (env w)) w).

(** What the provider answers to [request] in world [w]. *)
Definition answer {St} (w : World St) (request : Prompt.request)
  : error + Completion.t :=
  provider (env w) (length (api_calls (env w))) request.

(** [await openaiClient.chat.completions.create(request)]: the request is
    sent, and the call resolves to a completion or throws. *)
Definition chat_completions_create {St} (request : Prompt.request)
  : M St Completion.t := fun w =>
  (answer w request, with_env (after_call request (env w)) w).

(** ** The model gateway (the same text in the three copies) *)

Definition SYSTEM_INSTRUCTION : string :=
"You are an advanced AI assistant specialized in programming and mathematics. Your capabilities include:

1. Programming:
   - Code analysis and debugging
   - Algorithm optimization
   - Best practices and design patterns
   - Multiple programming languages expertise
   - Code review and suggestions

2. Mathematics:
   - Advanced mathematical problem-solving
   - Step-by-step solution explanations
   - Mathematical proofs
   - Statistical analysis
   - Numerical methods and computations

3. Image Analysis:
   - Code screenshot analysis
   - Mathematical equation recognition
   - Diagram and flowchart interpretation
   - Whiteboard content analysis
   - Mathematical graph interpretation

Provide detailed, accurate solutions with explanations. When dealing with code, include comments and best practices. For mathematical problems, show step-by-step solutions with clear reasoning.".

Definition system_message : Prompt.message :=
  {| Prompt.role := "system";
     Prompt.content_of := Prompt.plain (Some SYSTEM_INSTRUCTION) |}.

Definition DEFAULT_IMAGE_PROMPT : string := "What do you see in these images?".

(** [message || "What do you see in these images?"] *)
Definition text_or_default (message : option string) : string :=
  match message with
  | Some s => if String.eqb s "" then DEFAULT_IMAGE_PROMPT else s
  | None => DEFAULT_IMAGE_PROMPT
  end.

(** The user turn pushed after the system message (lines 207-225). *)
Definition user_message (req : ChatBody.t) : Prompt.message :=
  match ChatBody.files req with
  | Some ((_ :: _) as files) =>
      let imageMessages :=
        map (fun file => Prompt.image_url (ChatBody.data file)) files in
      {| Prompt.role := "user";
         Prompt.content_of :=
           Prompt.parts
             (Prompt.text (text_or_default (ChatBody.message req))
              :: imageMessages) |}
  | _ =>
      {| Prompt.role := "user";
         Prompt.content_of := Prompt.plain (ChatBody.message req) |}
  end.

Definition is_image (p : Prompt.part) : Prop :=
  match p with
  | Prompt.image_url _ => True
  | Prompt.text _ => False
  end.

Definition build_messages (req : ChatBody.t) : list Prompt.message :=
  [system_message; user_message req].

Definition completion_request (model : JS.value) (req : ChatBody.t)
  : Prompt.request :=
  {| Prompt.model := model;
     Prompt.messages := build_messages req;
     Prompt.max_tokens := 1000 |}.

(** [completion.choices[0].message]: a TypeError when there is no first
    choice. *)
Definition first_choice_message {St} (completion : Completion.t)
  : M St Completion.message :=
  match Completion.choices completion with
  | c :: _ => mret (Completion.message_of c)
  | [] => throw (TypeError "completion.choices[0] is undefined")
  end.

(** The 429 branch of the chat handler's [catch] (lines 272-289). *)
Definition wait_message (waitTimeSeconds : Z) : string :=
  let waitTimeMinutes := JS.ceil_div waitTimeSeconds 60 in
  let waitTimeHours := JS.floor_div waitTimeMinutes 60 in
  "Rate limit exceeded. " +:+
  (if (0 <? waitTimeHours)%Z
   then "Please wait approximately " +:+ JS.Number_toString waitTimeHours
        +:+ " hours and " +:+ JS.Number_toString (Z.rem waitTimeMinutes 60)
        +:+ " minutes before trying again."
   else "Please wait approximately " +:+ JS.Number_toString waitTimeMinutes
        +:+ " minutes before trying again.").

Definition rate_limit_response (e : error) : Response :=
  let waitTimeSeconds := JS.or_zero (JS.parseInt (retry_after_header e)) in
  status_json 429
    (RateLimit (wait_message waitTimeSeconds) waitTimeSeconds
       "RATE_LIMIT_EXCEEDED").

(** The [catch] block of the chat handler (lines 271-303). *)
Definition chat_catch {St} (e : error) : M St Response :=
  if bool_decide (error_status e = Some 429) then
    mret (rate_limit_response e)
  else if bool_decide (error_status e = Some 413) then
    mret (status_json 413
            (FailureCode
               "File size is too large. Maximum allowed size is 1MB per file."
               "PAYLOAD_TOO_LARGE"))
  else if bool_decide (error_status e = Some 400) then
    mret (status_json 400
            (FailureCode "Invalid request. Please check your inputs."
               "BAD_REQUEST"))
  else throw e.

(** POST /api/chat.  The three copies differ only in how the two messages
    are saved; [save messageId aiMessageId req reply] is that part. *)
Definition chat {St}
    (save : string -> string -> ChatBody.t -> option string -> M St unit)
    (req : ChatBody.t) : M St Response :=
  try_catch
    (model ← get_model;
     completion ← chat_completions_create (completion_request model req);
     aiResponse ← first_choice_message completion;
     messageId ← uuidv4;
     aiMessageId ← uuidv4;
     _ ← save messageId aiMessageId req (Completion.content aiResponse);
     mret (json (ChatReply (Completion.content aiResponse)
                   (ChatBody.conversationId req))))
    chat_catch.

(** The world once the chat handler has sent its request. *)
Definition sent {St} (req : ChatBody.t) (w : World St) : World St :=
  with_env (after_call (completion_request (currentModel w) req) (env w)) w.

Definition user_record (messageId : string) (req : ChatBody.t) (t : string)
  : Message.t :=
  Message.mk messageId (ChatBody.conversationId req) "user"
    (ChatBody.message req) t (Some "chat").

Definition assistant_record (aiMessageId : string) (req : ChatBody.t)
    (reply : option string) (t : string) : Message.t :=
  Message.mk aiMessageId (ChatBody.conversationId req) "assistant" reply t
    (Some "chat").

(** The two records of a turn that starts in world [w] and is answered
    with [reply]: the ids are the next two values of uuidv4, the times the
    next two clock reads. *)
Definition user_of_turn {St} (req : ChatBody.t) (w : World St) : Message.t :=
  user_record (uuid_source (env w) (uuid_calls (env w))) req
    (clock (env w) (clock_reads (env w))).

Definition assistant_of_turn {St} (req : ChatBody.t) (w : World St)
    (reply : option string) : Message.t :=
  assistant_record (uuid_source (env w) (S (uuid_calls (env w)))) req reply
    (clock (env w) (S (clock_reads (env w)))).

Definition debug_record (id : string) (conversationId message : option string)
    (t : string) : Message.t :=
  Message.mk id conversationId "system" message t None.

(** ** Model selection (the same text in the three copies) *)

Definition AVAILABLE_MODELS : list (string * string) :=
  [("o1", "o1"); ("gpt-4o-mini", "gpt-4o-mini");
   ("o1-preview", "o1-preview"); ("gpt-4o", "gpt-4o")].

(** [AVAILABLE_MODELS[key]] *)
Definition available_model (key : string) : JS.value :=
  JS.get (JS.literal AVAILABLE_MODELS) key.

Definition default_model : JS.value := available_model "gpt-4o".

(** GET /api/models *)
Definition get_models {St} : M St Response :=
  mret (json (Models (map fst AVAILABLE_MODELS))).

(** POST /api/models/select (lines 335-343). *)
Definition select_model {St} (model : string) : M St Response :=
  if JS.truthy (available_model model) then
    _ ← set_model (available_model model);
    currentModel ← get_model;
    mret (json (ModelSelected currentModel))
  else
    mret (status_json 400 (Failure "Invalid model selection")).

(** Reading a property of [data] when [data] may be [null]. *)
Definition property {St A} (name : string) (data : option A) : M St A :=
  match data with
  | Some a => mret a
  | None => throw (TypeError ("Cannot read properties of null: " +:+ name))
  end.

(** ** Order of creation *)

(** The records of [l] carry, under [key], values that [source] returned at
    calls number 0 to [n - 1], and an earlier record of [l] carries the value
    of an earlier call: [l] is in the order in which its records drew their
    [key] from [source]. *)
Definition drawn_before {A} (key : A -> string) (source : nat -> string)
    (x y : A) : Prop :=
  exists i j, (i < j)%nat /\ key x = source i /\ key y = source j.

Definition drawn_in_order {A} (key : A -> string) (source : nat -> string)
    (n : nat) (l : list A) : Prop :=
  Forall (fun x => exists k, (k < n)%nat /\ key x = source k) l
  /\ StronglySorted (drawn_before key source) l.

(** ** The routes (the same in the three copies) *)

Inductive Request :=
| GET_conversations
| GET_messages (id : string)
| GET_debug (id : string)
| POST_conversations (title : option string)
| POST_chat (req : ChatBody.t)
| POST_chat_debug (message conversationId : option string)
| GET_models
| POST_models_select (model : string)
| DELETE_conversation (id : string).

(** ** The file variant (lines 1-377) *)

Module FileVariant.

(** The three JSON documents under [data/].  A document is [None] when it
    is missing or does not parse ([readJsonFile] then returns [null]); when
    it parses it has the shape the server writes.  [writable] tells whether
    [fs.writeFile] succeeds; [writeJsonFile] logs a failure and goes on. *)
Record Disk := {
  conversations_json : option (list Conversation.t);
  messages_json : option (list Message.t);
  debug_messages_json : option (list Message.t);
  writable : bool
}.

Inductive path : Type -> Type :=
| CONVERSATIONS_FILE : path (list Conversation.t)
| MESSAGES_FILE : path (list Message.t)
| DEBUG_MESSAGES_FILE : path (list Message.t).

Definition contents {A} (p : path A) (d : Disk) : option A :=
  match p in path A return option A with
  | CONVERSATIONS_FILE => conversations_json d
  | MESSAGES_FILE => messages_json d
  | DEBUG_MESSAGES_FILE => debug_messages_json d
  end.

Definition overwrite {A} (p : path A) (d : Disk) : A -> Disk :=
  match p in path A return A -> Disk with
  | CONVERSATIONS_FILE => fun data =>
      {| conversations_json := Some data; messages_json := messages_json d;
         debug_messages_json := debug_messages_json d;
         writable := writable d |}
  | MESSAGES_FILE => fun data =>
      {| conversations_json := conversations_json d;
         messages_json := Some data;
         debug_messages_json := debug_messages_json d;
         writable := writable d |}
  | DEBUG_MESSAGES_FILE => fun data =>
      {| conversations_json := conversations_json d;
         messages_json := messages_json d;
         debug_messages_json := Some data;
         writable := writable d |}
  end.

Definition readJsonFile {A} (filePath : path A) : M Disk (option A) :=
  fun w => (inr (contents filePath (store w)), w).

Definition writeJsonFile {A} (filePath : path A) (data : A) : M Disk unit :=
  fun w =>
    (inr tt,
     if writable (store w)
     then with_store (overwrite filePath (store w) data) w
     else w).

(** GET /api/conversations *)
Definition get_conversations : M Disk Response :=
  try_catch
    (data ← readJsonFile CONVERSATIONS_FILE;
     conversations ← property "conversations" data;
     mret (json (Conversations conversations)))
    (fun _ => mret (status_json 500 (Failure "Failed to get conversations"))).

(** GET /api/conversations/:id/messages *)
Definition get_messages (id : string) : M Disk Response :=
  try_catch
    (data ← readJsonFile MESSAGES_FILE;
     messages ← property "messages" data;
     let conversationMessages :=
       filter (fun msg => Message.conversation_id msg = Some id
                          ∧ Message.message_type msg = Some "chat") messages in
     mret (json (Messages conversationMessages)))
    (fun _ => mret (status_json 500 (Failure "Failed to get messages"))).

(** GET /api/conversations/:id/debug *)
Definition get_debug (id : string) : M Disk Response :=
  try_catch
    (data ← readJsonFile DEBUG_MESSAGES_FILE;
     messages ← property "messages" data;
     let conversationMessages :=
       filter (fun msg => Message.conversation_id msg = Some id) messages in
     mret (json (Messages conversationMessages)))
    (fun _ => mret (status_json 500 (Failure "Failed to get debug messages"))).

(** POST /api/conversations *)
Definition post_conversations (title : option string) : M Disk Response :=
  try_catch
    (data ← readJsonFile CONVERSATIONS_FILE;
     id ← uuidv4;
     created_at ← now;
     let newConversation := Conversation.mk id title (Some created_at) in
     conversations ← property "conversations" data;
     _ ← writeJsonFile CONVERSATIONS_FILE (conversations ++ [newConversation]);
     mret (json (ConversationBody newConversation)))
    (fun _ => mret (status_json 500 (Failure "Failed to create conversation"))).

(** Lines 244-265: the user message, then the reply, each followed by a
    write of the whole document. *)
Definition save_turn (messageId aiMessageId : string) (req : ChatBody.t)
    (reply : option string) : M Disk unit :=
  messagesData ← readJsonFile MESSAGES_FILE;
  messages ← property "messages" messagesData;
  t1 ← now;
  let messages1 := messages ++ [user_record messageId req t1] in
  _ ← writeJsonFile MESSAGES_FILE messages1;
  t2 ← now;
  let messages2 := messages1 ++ [assistant_record aiMessageId req reply t2] in
  writeJsonFile MESSAGES_FILE messages2.

(** POST /api/chat *)
Definition post_chat : ChatBody.t -> M Disk Response := chat save_turn.

(** POST /api/chat/debug *)
Definition post_chat_debug (message conversationId : option string)
  : M Disk Response :=
  try_catch
    (debugMessagesData ← readJsonFile DEBUG_MESSAGES_FILE;
     messages ← property "messages" debugMessagesData;
     id ← uuidv4;
     created_at ← now;
     _ ← writeJsonFile DEBUG_MESSAGES_FILE
           (messages ++ [debug_record id conversationId message created_at]);
     mret (json Success))
    (fun _ => mret (status_json 500 (Failure "Failed to save debug message"))).

(** DELETE /api/conversations/:id *)
Definition delete_conversation (id : string) : M Disk Response :=
  try_catch
    (conversationsData ← readJsonFile CONVERSATIONS_FILE;
     conversations ← property "conversations" conversationsData;
     _ ← writeJsonFile CONVERSATIONS_FILE
           (filter (fun conv => Conversation.id conv ≠ id) conversations);
     messagesData ← readJsonFile MESSAGES_FILE;
     messages ← property "messages" messagesData;
     _ ← writeJsonFile MESSAGES_FILE
           (filter (fun msg => Message.conversation_id msg ≠ Some id) messages);
     debugMessagesData ← readJsonFile DEBUG_MESSAGES_FILE;
     debugMessages ← property "messages" debugMessagesData;
     _ ← writeJsonFile DEBUG_MESSAGES_FILE
           (filter (fun msg => Message.conversation_id msg ≠ Some id)
              debugMessages);
     mret (json Success))
    (fun _ => mret (status_json 500 (Failure "Failed to delete conversation"))).

Definition handle (r : Request) : M Disk Response :=
  match r with
  | GET_conversations => get_conversations
  | GET_messages id => get_messages id
  | GET_debug id => get_debug id
  | POST_conversations title => post_conversations title
  | POST_chat req => post_chat req
  | POST_chat_debug message conversationId =>
      post_chat_debug message conversationId
  | GET_models => get_models
  | POST_models_select model => select_model model
  | DELETE_conversation id => delete_conversation id
  end.

(** A fresh installation: [ensureDataFiles] has written the three empty
    documents (lines 20-47); the default model (line 112). *)
Definition initial (e : Env) (writable : bool) : World Disk :=
  {| env := e; currentModel := default_model;
     store := {| conversations_json := Some []; messages_json := Some [];
                 debug_messages_json := Some []; writable := writable |} |}.

Inductive reachable : World Disk -> Prop :=
| reachable_initial e writable : reachable (initial e writable)
| reachable_step w r : reachable w -> reachable (snd (handle r w)).

(** What holds of every reachable world: the three documents read, the
    messages are in the order of their clock reads and the conversations
    in the order of their uuidv4 calls. *)
Definition invariant (w : World Disk) : Prop :=
  exists cs ms ds,
    conversations_json (store w) = Some cs
    /\ messages_json (store w) = Some ms
    /\ debug_messages_json (store w) = Some ds
    /\ drawn_in_order Message.created_at (clock (env w)) (clock_reads (env w)) ms
    /\ drawn_in_order Conversation.id (uuid_source (env w)) (uuid_calls (env w))
         cs.

End FileVariant.

(** ** The SQLite variant (lines 379-728): the conversations table *)

Module SqliteVariant.

(** Rows of [conversations (id TEXT PRIMARY KEY, title TEXT, created_at
    DATETIME DEFAULT CURRENT_TIMESTAMP)]. *)
Record Database := { conversations : list Conversation.t }.

(** [a.created_at <= b.created_at], NULL first. *)
Definition created_le (a b : Conversation.t) : bool :=
  match Conversation.created_at a, Conversation.created_at b with
  | Some x, Some y => String.leb x y
  | None, _ => true
  | Some _, None => false
  end.

Fixpoint insert_desc (row : Conversation.t) (sorted : list Conversation.t)
  : list Conversation.t :=
  match sorted with
  | [] => [row]
  | r :: rest =>
      if created_le row r then r :: insert_desc row rest else row :: sorted
  end.

(** [ORDER BY created_at DESC]; SQL leaves the order of equal keys open. *)
Definition order_by_created_at_desc (rows : list Conversation.t)
  : list Conversation.t :=
  foldr insert_desc [] rows.

(** GET /api/conversations *)
Definition get_conversations : M Database Response :=
  db ← get_store;
  mret (json (Conversations (order_by_created_at_desc (conversations db)))).

(** POST /api/conversations (lines 521-533): the row gets its timestamp from
    the column default, and the response is [{ id, title }]. *)
Definition post_conversations (title : option string) : M Database Response :=
  id ← uuidv4;
  db ← get_store;
  if bool_decide (id ∈ map Conversation.id (conversations db)) then
    mret (status_json 500 (Failure "Failed to create conversation"))
  else
    current_timestamp ← now;
    _ ← set_store
          {| conversations :=
               conversations db
               ++ [Conversation.mk id title (Some current_timestamp)] |};
    mret (json (ConversationBody (Conversation.mk id title None))).

End SqliteVariant.

(** ** The in-memory variant (lines 730-1063) *)

Module MemoryVariant.

Record Memory := {
  CONVERSATIONS : list Conversation.t;
  MESSAGES : list Message.t;
  DEBUG_MESSAGES : list Message.t
}.

Definition with_CONVERSATIONS (l : list Conversation.t) (m : Memory) :=
  {| CONVERSATIONS := l; MESSAGES := MESSAGES m;
     DEBUG_MESSAGES := DEBUG_MESSAGES m |}.
Definition with_MESSAGES (l : list Message.t) (m : Memory) :=
  {| CONVERSATIONS := CONVERSATIONS m; MESSAGES := l;
     DEBUG_MESSAGES := DEBUG_MESSAGES m |}.
Definition with_DEBUG_MESSAGES (l : list Message.t) (m : Memory) :=
  {| CONVERSATIONS := CONVERSATIONS m; MESSAGES := MESSAGES m;
     DEBUG_MESSAGES := l |}.

(** GET /api/conversations *)
Definition get_conversations : M Memory Response :=
  try_catch
    (m ← get_store;
     mret (json (Conversations (CONVERSATIONS m))))
    (fun _ => mret (status_json 500 (Failure "Failed to fetch conversations"))).

(** GET /api/conversations/:id/messages *)
Definition get_messages (id : string) : M Memory Response :=
  try_catch
    (m ← get_store;
     let conversationMessages :=
       filter (fun msg => Message.conversation_id msg = Some id) (MESSAGES m) in
     mret (json (Messages conversationMessages)))
    (fun _ => mret (status_json 500 (Failure "Failed to fetch messages"))).

(** GET /api/conversations/:id/debug *)
Definition get_debug (id : string) : M Memory Response :=
  try_catch
    (m ← get_store;
     let conversationMessages :=
       filter (fun msg => Message.conversation_id msg = Some id)
         (DEBUG_MESSAGES m) in
     mret (json (WrappedMessages conversationMessages)))
    (fun _ => mret (status_json 500 (Failure "Failed to fetch debug messages"))).

(** POST /api/conversations (lines 832-845): the request body is not read. *)
Definition post_conversations (title : option string) : M Memory Response :=
  try_catch
    (conversationId ← uuidv4;
     created_at ← now;
     let newConversation :=
       Conversation.mk conversationId None (Some created_at) in
     m ← get_store;
     _ ← set_store (with_CONVERSATIONS (CONVERSATIONS m ++ [newConversation]) m);
     mret (json (ConversationBody newConversation)))
    (fun _ => mret (status_json 500 (Failure "Failed to create conversation"))).

(** Lines 920-938. *)
Definition save_turn (messageId aiMessageId : string) (req : ChatBody.t)
    (reply : option string) : M Memory unit :=
  t1 ← now;
  m ← get_store;
  _ ← set_store (with_MESSAGES (MESSAGES m ++ [user_record messageId req t1]) m);
  t2 ← now;
  m ← get_store;
  set_store
    (with_MESSAGES (MESSAGES m ++ [assistant_record aiMessageId req reply t2]) m).

(** POST /api/chat *)
Definition post_chat : ChatBody.t -> M Memory Response := chat save_turn.

(** POST /api/chat/debug *)
Definition post_chat_debug (message conversationId : option string)
  : M Memory Response :=
  try_catch
    (id ← uuidv4;
     created_at ← now;
     m ← get_store;
     _ ← set_store
           (with_DEBUG_MESSAGES
              (DEBUG_MESSAGES m
               ++ [debug_record id conversationId message created_at])
              m);
     mret (json Success))
    (fun _ => mret (status_json 500 (Failure "Failed to save debug message"))).

(** [arr.forEach((msg, index) => { if (p(msg)) indices.unshift(index) })],
    started at [index] with [indices] collected so far. *)
Fixpoint collect_indices {A} (p : A -> bool) (arr : list A) (index : nat)
    (indices : list nat) : list nat :=
  match arr with
  | [] => indices
  | msg :: rest =>
      collect_indices p rest (S index)
        (if p msg then index :: indices else indices)
  end.

(** [indices.forEach(index => arr.splice(index, 1))] *)
Definition splice_each {A} (indices : list nat) (arr : list A) : list A :=
  fold_left (fun arr index => delete index arr) indices arr.

(** Lines 1028-1034 (and 1037-1043 for the debug array). *)
Definition remove_messages_of (id : string) (arr : list Message.t)
  : list Message.t :=
  let messageIndices :=
    collect_indices
      (fun msg => bool_decide (Message.conversation_id msg = Some id))
      arr 0%nat [] in
  splice_each messageIndices arr.

(** Lines 1022-1025: [findIndex] and, when found, [splice(index, 1)]. *)
Definition remove_conversation (id : string) (arr : list Conversation.t)
  : list Conversation.t :=
  match list_find (fun conv => Conversation.id conv = id) arr with
  | Some (conversationIndex, _) => delete conversationIndex arr
  | None => arr
  end.

(** DELETE /api/conversations/:id *)
Definition delete_conversation (id : string) : M Memory Response :=
  try_catch
    (m ← get_store;
     _ ← set_store
           {| CONVERSATIONS := remove_conversation id (CONVERSATIONS m);
              MESSAGES := remove_messages_of id (MESSAGES m);
              DEBUG_MESSAGES := remove_messages_of id (DEBUG_MESSAGES m) |};
     mret (json Success))
    (fun _ => mret (status_json 500 (Failure "Failed to delete conversation"))).

Definition handle (r : Request) : M Memory Response :=
  match r with
  | GET_conversations => get_conversations
  | GET_messages id => get_messages id
  | GET_debug id => get_debug id
  | POST_conversations title => post_conversations title
  | POST_chat req => post_chat req
  | POST_chat_debug message conversationId =>
      post_chat_debug message conversationId
  | GET_models => get_models
  | POST_models_select model => select_model model
  | DELETE_conversation id => delete_conversation id
  end.

(** The process at start: empty arrays (lines 748-750) and the default
    model (line 793), in any environment. *)
Definition initial (e : Env) : World Memory :=
  {| env := e; currentModel := default_model;
     store := {| CONVERSATIONS := []; MESSAGES := []; DEBUG_MESSAGES := [] |} |}.

(** The worlds the process can be in: the start, and what a request makes
    of such a world. *)
Inductive reachable : World Memory -> Prop :=
| reachable_initial e : reachable (initial e)
| reachable_step w r : reachable w -> reachable (snd (handle r w)).

(** What holds of every reachable world: MESSAGES holds chat messages
    only and DEBUG_MESSAGES untyped ones, the messages are in the order of
    their clock reads and the conversations in the order of their uuidv4
    calls. *)
Definition invariant (w : World Memory) : Prop :=
  Forall (fun msg => Message.message_type msg = Some "chat")
    (MESSAGES (store w))
  /\ Forall (fun msg => Message.message_type msg = None)
       (DEBUG_MESSAGES (store w))
  /\ drawn_in_order Message.created_at (clock (env w)) (clock_reads (env w))
       (MESSAGES (store w))
  /\ drawn_in_order Conversation.id (uuid_source (env w)) (uuid_calls (env w))
       (CONVERSATIONS (store w)).

End MemoryVariant.

(** ** The cascade of a deletion, in the words of the specification *)

(** Filtering out every message of the deleted conversation, the others
    staying in their order. *)
Definition without_conversation (id : string) (arr : list Message.t)
  : list Message.t :=
  filter (fun msg => Message.conversation_id msg ≠ Some id) arr.

(** ** Decimal numerals *)

(** The digits of a decimal numeral, most significant first. *)
Fixpoint uint_values (d : Decimal.uint) : list Z :=
  match d with
  | Nil => []
  | D0 d => 0 :: uint_values d
  | D1 d => 1 :: uint_values d
  | D2 d => 2 :: uint_values d
  | D3 d => 3 :: uint_values d
  | D4 d => 4 :: uint_values d
  | D5 d => 5 :: uint_values d
  | D6 d => 6 :: uint_values d
  | D7 d => 7 :: uint_values d
  | D8 d => 8 :: uint_values d
  | D9 d => 9 :: uint_values d
  end.


(** ** Sample worlds *)

Definition sample_uuid (n : nat) : string :=
  "uuid-" +:+ JS.Number_toString (Z.of_nat n).

Definition sample_clock (n : nat) : string :=
  "2024-05-01T10:00:00." +:+ JS.Number_toString (100 + Z.of_nat n) +:+ "Z".

Definition sample_env
    (provider : nat -> Prompt.request -> error + Completion.t) : Env :=
  {| uuid_source := sample_uuid; uuid_calls := 0;
     clock := sample_clock; clock_reads := 0;
     provider := provider; api_calls := [] |}.

(** A provider that answers every request with a 429 carrying the given
    headers, and one that answers every request with one choice. *)
Definition rate_limited (headers : option (gmap string string))
  : nat -> Prompt.request -> error + Completion.t :=
  fun _ _ => inl (APIError (Some 429) headers).

Definition choice_of (reply : string) : Completion.choice :=
  {| Completion.message_of := {| Completion.content := Some reply |} |}.

Definition replying (reply : string)
  : nat -> Prompt.request -> error + Completion.t :=
  fun _ _ => inr {| Completion.choices := [choice_of reply] |}.

Definition sample_disk : FileVariant.Disk :=
  {| FileVariant.conversations_json := Some [];
     FileVariant.messages_json := Some [];
     FileVariant.debug_messages_json := Some [];
     FileVariant.writable := true |}.

Definition sample_memory : MemoryVariant.Memory :=
  {| MemoryVariant.CONVERSATIONS := [];
     MemoryVariant.MESSAGES := [];
     MemoryVariant.DEBUG_MESSAGES := [] |}.

Definition sample_world {St} (provider : nat -> Prompt.request -> error + Completion.t)
    (s : St) : World St :=
  {| env := sample_env provider; currentModel := default_model; store := s |}.

Definition hello : ChatBody.t :=
  ChatBody.mk (Some "Hello") (Some "c1") None.

(** A disk with two conversations, a turn in each and a debug line. *)
Definition busy_disk : FileVariant.Disk :=
  {| FileVariant.conversations_json :=
       Some [Conversation.mk "c1" (Some "First") (Some "2024-05-01T09:00:00.000Z");
             Conversation.mk "c2" None (Some "2024-05-01T09:30:00.000Z")];
     FileVariant.messages_json :=
       Some [Message.mk "m1" (Some "c1") "user" (Some "Hello")
               "2024-05-01T09:01:00.000Z" (Some "chat");
             Message.mk "m2" (Some "c2") "user" (Some "Bonjour")
               "2024-05-01T09:31:00.000Z" (Some "chat");
             Message.mk "m3" (Some "c1") "assistant" (Some "Hi")
               "2024-05-01T09:01:02.000Z" (Some "chat")];
     FileVariant.debug_messages_json :=
       Some [Message.mk "d1" (Some "c1") "system" (Some "sent")
               "2024-05-01T09:01:01.000Z" None];
     FileVariant.writable := true |}.

(** The in-memory process after two conversations were created and a turn
    was chatted in the first. *)
Definition busy_memory : World MemoryVariant.Memory :=
  snd (MemoryVariant.handle
         (POST_chat (ChatBody.mk (Some "Hello") (Some "uuid-0") None))
         (snd (MemoryVariant.handle (POST_conversations None)
                 (snd (MemoryVariant.handle (POST_conversations (Some "First"))
                         (MemoryVariant.initial
                            (sample_env (replying "Hi there")))))))).

Definition empty_database : SqliteVariant.Database :=
  {| SqliteVariant.conversations := [] |}.

(** ** Further sample worlds *)

(** The routes that only read. *)
Definition is_GET (r : Request) : bool :=
  match r with
  | GET_conversations | GET_messages _ | GET_debug _ | GET_models => true
  | _ => false
  end.

(** A provider that throws an error of the given status, without headers,
    and one that resolves without any choice. *)
Definition failing (status : option Z)
  : nat -> Prompt.request -> error + Completion.t :=
  fun _ _ => inl (APIError status None).

Definition speechless : nat -> Prompt.request -> error + Completion.t :=
  fun _ _ => inr {| Completion.choices := [] |}.

(** A disk whose documents are missing or do not parse, and a disk that
    holds documents but refuses writes. *)
Definition broken_disk : FileVariant.Disk :=
  {| FileVariant.conversations_json := None;
     FileVariant.messages_json := None;
     FileVariant.debug_messages_json := None;
     FileVariant.writable := true |}.

Definition read_only_disk : FileVariant.Disk :=
  {| FileVariant.conversations_json := FileVariant.conversations_json busy_disk;
     FileVariant.messages_json := FileVariant.messages_json busy_disk;
     FileVariant.debug_messages_json := FileVariant.debug_messages_json busy_disk;
     FileVariant.writable := false |}.

Definition is_POST_chat (r : Request) : bool :=
  match r with
  | POST_chat _ => true
  | _ => false
  end.

Definition is_POST_models_select (r : Request) : bool :=
  match r with
  | POST_models_select _ => true
  | _ => false
  end.

(** A disk on which messages.json no longer parses. *)
Definition damaged_disk : FileVariant.Disk :=
  {| FileVariant.conversations_json := FileVariant.conversations_json busy_disk;
     FileVariant.messages_json := None;
     FileVariant.debug_messages_json := FileVariant.debug_messages_json busy_disk;
     FileVariant.writable := true |}.

(** ** Turns *)

(** The chat messages come in turns: a user message followed by an
    assistant message of the same conversation, both of type chat.  The
    in-memory chat handler pushes the two records in consecutive statements
    (lines 921-938), with no [await] between them. *)
Inductive in_turns : list Message.t -> Prop :=
| in_turns_nil : in_turns []
| in_turns_cons u a rest :
    Message.role u = "user" ->
    Message.role a = "assistant" ->
    Message.conversation_id u = Message.conversation_id a ->
    Message.message_type u = Some "chat" ->
    Message.message_type a = Some "chat" ->
    in_turns rest ->
    in_turns (u :: a :: rest).

Module MemoryIds.

(** What holds of the message ids of every reachable in-memory world: the
    chat messages, and the debug messages, are in the order in which their
    ids were drawn from uuidv4, and the chat messages come in turns. *)
Definition invariant (w : World MemoryVariant.Memory) : Prop :=
  drawn_in_order Message.id (uuid_source (env w)) (uuid_calls (env w))
    (MemoryVariant.MESSAGES (store w))
  /\ drawn_in_order Message.id (uuid_source (env w)) (uuid_calls (env w))
       (MemoryVariant.DEBUG_MESSAGES (store w))
  /\ in_turns (MemoryVariant.MESSAGES (store w)).

End MemoryIds.

Module FileIds.

(** What holds of the message ids of every reachable world of the file
    variant: the chat messages, and the debug messages, are in the order in
    which their ids were drawn from uuidv4. *)
Definition invariant (w : World FileVariant.Disk) : Prop :=
  exists ms ds,
    FileVariant.messages_json (store w) = Some ms
    /\ FileVariant.debug_messages_json (store w) = Some ds
    /\ drawn_in_order Message.id (uuid_source (env w)) (uuid_calls (env w)) ms
    /\ drawn_in_order Message.id (uuid_source (env w)) (uuid_calls (env w)) ds.

End FileIds.

(** The file variant after a conversation was created and a turn chatted
    in it, from a fresh installation. *)
Definition busy_file : World FileVariant.Disk :=
  snd (FileVariant.handle
         (POST_chat (ChatBody.mk (Some "Hello") (Some "uuid-0") None))
         (snd (FileVariant.handle (POST_conversations (Some "First"))
                 (FileVariant.initial (sample_env (replying "Hi there")) true)))).

(** A table that already holds the row the next uuidv4 value would name. *)
Definition taken_database : SqliteVariant.Database :=
  {| SqliteVariant.conversations :=
       [Conversation.mk "uuid-0" (Some "First") (Some "2024-05-01 09:00:00")] |}.

(** [a] is listed no later than [b] under ORDER BY created_at DESC. *)
Definition newer_first (a b : Conversation.t) : Prop :=
  SqliteVariant.created_le b a = true.

(** ** The data directory at start (lines 14-66) *)

Module Startup.

(** A file under [data/]: absent, present with a text that does not parse,
    or present with a document. *)
Inductive file (A : Type) :=
| Absent
| Garbled
| Document (data : A).
Arguments Absent {A}.
Arguments Garbled {A}.
Arguments Document {A} _.

(** The directory [data/] and its three files; [accepts_writes] tells
    whether creating a directory or writing a file succeeds. *)
Record Files := {
  directory : bool;
  conversations : file (list Conversation.t);
  messages : file (list Message.t);
  debug_messages : file (list Message.t);
  accepts_writes : bool
}.

(** A step of [ensureDataFiles] ends normally or throws. *)
Inductive outcome :=
| Done (fs : Files)
| Threw (fs : Files).

Definition and_then (o : outcome) (k : Files -> outcome) : outcome :=
  match o with
  | Done fs => k fs
  | Threw fs => Threw fs
  end.

(** [fs.mkdir(dir, { recursive: true })]: nothing to do when the directory
    exists. *)
Definition mkdir (fs : Files) : outcome :=
  if directory fs then Done fs
  else if accepts_writes fs then
    Done {| directory := true; conversations := conversations fs;
            messages := messages fs; debug_messages := debug_messages fs;
            accepts_writes := accepts_writes fs |}
  else Threw fs.

(** [fs.access(file)] succeeds when the file exists. *)
Definition access {A} (f : file A) : bool :=
  match f with
  | Absent => false
  | Garbled | Document _ => true
  end.

(** [try { await fs.access(F) } catch { await fs.writeFile(F, empty) }] for
    each of the three files; a failing write throws out of the [catch]. *)
Definition ensure_conversations (fs : Files) : outcome :=
  if access (conversations fs) then Done fs
  else if accepts_writes fs && directory fs then
    Done {| directory := directory fs; conversations := Document [];
            messages := messages fs; debug_messages := debug_messages fs;
            accepts_writes := accepts_writes fs |}
  else Threw fs.

Definition ensure_messages (fs : Files) : outcome :=
  if access (messages fs) then Done fs
  else if accepts_writes fs && directory fs then
    Done {| directory := directory fs; conversations := conversations fs;
            messages := Document []; debug_messages := debug_messages fs;
            accepts_writes := accepts_writes fs |}
  else Threw fs.

Definition ensure_debug_messages (fs : Files) : outcome :=
  if access (debug_messages fs) then Done fs
  else if accepts_writes fs && directory fs then
    Done {| directory := directory fs; conversations := conversations fs;
            messages := messages fs; debug_messages := Document [];
            accepts_writes := accepts_writes fs |}
  else Threw fs.

(** [ensureDataFiles] (lines 20-47): the outer [catch] logs and returns. *)
Definition ensureDataFiles (fs : Files) : Files :=
  match and_then (and_then (and_then (mkdir fs) ensure_conversations)
                    ensure_messages) ensure_debug_messages with
  | Done fs' => fs'
  | Threw fs' => fs'
  end.

(** What [readJsonFile] (lines 50-58) makes of a file: its document, or
    [null] when reading or parsing throws. *)
Definition read {A} (f : file A) : option A :=
  match f with
  | Document data => Some data
  | Absent | Garbled => None
  end.

(** The disk the handlers of the file variant see. *)
Definition disk_of (fs : Files) : FileVariant.Disk :=
  {| FileVariant.conversations_json := read (conversations fs);
     FileVariant.messages_json := read (messages fs);
     FileVariant.debug_messages_json := read (debug_messages fs);
     FileVariant.writable := accepts_writes fs && directory fs |}.

(** Nothing yet: no directory, no file. *)
Definition nothing (accepts_writes : bool) : Files :=
  {| directory := false; conversations := Absent; messages := Absent;
     debug_messages := Absent; accepts_writes := accepts_writes |}.

(** A directory in which messages.json was damaged and the debug file is
    missing. *)
Definition damaged : Files :=
  {| directory := true; conversations := Document [];
     messages := Garbled; debug_messages := Absent; accepts_writes := true |}.

End Startup.

(** ** The SQLite variant: the messages table (lines 445-455, 486-518,
    608-624, 666-688, 707-721) *)

Module SqliteMessages.

(** The two tables.  Chat and debug messages share the table [messages]
    and differ in [message_type]. *)
Record Tables := {
  conversations_table : SqliteVariant.Database;
  messages_table : list Message.t
}.

(** [INSERT INTO messages ...]: rejected when the id is already in the
    table (PRIMARY KEY), the promise then rejecting with an error that has
    neither status nor headers; otherwise the row is added with
    CURRENT_TIMESTAMP as its created_at.  The foreign key on
    conversation_id is declared but the connection never enables foreign
    keys, so it is not checked. *)
Definition insert_message (id : string) (row : string -> Message.t)
  : M Tables unit :=
  db ← get_store;
  if bool_decide (id ∈ map Message.id (messages_table db)) then
    throw (APIError None None)
  else
    current_timestamp ← now;
    set_store {| conversations_table := conversations_table db;
                 messages_table :=
                   messages_table db ++ [row current_timestamp] |}.

(** Lines 608-624: the column default makes both rows of type chat. *)
Definition save_turn (messageId aiMessageId : string) (req : ChatBody.t)
    (reply : option string) : M Tables unit :=
  _ ← insert_message messageId (user_record messageId req);
  insert_message aiMessageId (assistant_record aiMessageId req reply).

(** POST /api/chat *)
Definition post_chat : ChatBody.t -> M Tables Response := chat save_turn.

(** POST /api/chat/debug (lines 666-688) *)
Definition post_chat_debug (message conversationId : option string)
  : M Tables Response :=
  try_catch
    (debugId ← uuidv4;
     _ ← insert_message debugId
           (fun t => Message.mk debugId conversationId "system" message t
                       (Some "debug"));
     mret (json Success))
    (fun _ => mret (status_json 500 (Failure "Failed to save debug message"))).

Fixpoint insert_asc (row : Message.t) (sorted : list Message.t)
  : list Message.t :=
  match sorted with
  | [] => [row]
  | r :: rest =>
      if String.leb (Message.created_at r) (Message.created_at row)
      then r :: insert_asc row rest
      else row :: sorted
  end.

(** [ORDER BY created_at ASC]; SQL leaves the order of equal keys open. *)
Definition order_by_created_at_asc (rows : list Message.t) : list Message.t :=
  foldr insert_asc [] rows.

(** [SELECT * FROM messages WHERE conversation_id = ? AND message_type = ?
    ORDER BY created_at ASC] *)
Definition select_messages (id type : string) (db : Tables) : list Message.t :=
  order_by_created_at_asc
    (filter (fun msg => Message.conversation_id msg = Some id
                        ∧ Message.message_type msg = Some type)
       (messages_table db)).

(** GET /api/conversations/:id/messages and GET /api/conversations/:id/debug *)
Definition get_messages (id : string) : M Tables Response :=
  db ← get_store;
  mret (json (Messages (select_messages id "chat" db))).

Definition get_debug (id : string) : M Tables Response :=
  db ← get_store;
  mret (json (Messages (select_messages id "debug" db))).

(** DELETE /api/conversations/:id (lines 707-721): the messages, then the
    conversation. *)
Definition delete_conversation (id : string) : M Tables Response :=
  db ← get_store;
  _ ← set_store {| conversations_table := conversations_table db;
                   messages_table :=
                     filter (fun msg => Message.conversation_id msg ≠ Some id)
                       (messages_table db) |};
  db ← get_store;
  _ ← set_store
        {| conversations_table :=
             {| SqliteVariant.conversations :=
                  filter (fun conv => Conversation.id conv ≠ id)
                    (SqliteVariant.conversations (conversations_table db)) |};
           messages_table := messages_table db |};
  mret (json Success).

(** [a] is listed no later than [b] under ORDER BY created_at ASC. *)
Definition older_first (a b : Message.t) : Prop :=
  String.leb (Message.created_at a) (Message.created_at b) = true.

(** Tables with one conversation, a turn and a debug line in it. *)
Definition busy : Tables :=
  {| conversations_table :=
       {| SqliteVariant.conversations :=
            [Conversation.mk "c1" (Some "First") (Some "2024-05-01 09:00:00")] |};
     messages_table :=
       [Message.mk "m1" (Some "c1") "user" (Some "Hello")
          "2024-05-01 09:01:00" (Some "chat");
        Message.mk "d1" (Some "c1") "system" (Some "sent")
          "2024-05-01 09:01:00" (Some "debug");
        Message.mk "m2" (Some "c1") "assistant" (Some "Hi")
          "2024-05-01 09:01:02" (Some "chat")] |}.

End SqliteMessages.

(** * Properties *)

(** ** The primitives on sample inputs *)

Example parseInt_3661 : JS.parseInt (Some "3661") = Some 3661.
Proof. reflexivity. Qed.
Example parseInt_trailing : JS.parseInt (Some "  12px") = Some 12.
Proof. reflexivity. Qed.
Example parseInt_hex : JS.parseInt (Some "0x1f") = Some 31.
Proof. reflexivity. Qed.
Example parseInt_negative : JS.parseInt (Some "-07") = Some (-7).
Proof. reflexivity. Qed.
Example parseInt_undefined : JS.parseInt None = None.
Proof. reflexivity. Qed.
Example parseInt_date :
  JS.parseInt (Some "Wed, 21 Oct 2015 07:28:00 GMT") = None.
Proof. reflexivity. Qed.
Example parseInt_no_break_space :
  JS.parseInt (Some (String (ascii_of_nat 160) "42")) = Some 42.
Proof. reflexivity. Qed.
Example parseInt_form_feed :
  JS.parseInt (Some (String (ascii_of_nat 12) "42")) = Some 42.
Proof. reflexivity. Qed.
Example parseInt_next_line :
  JS.parseInt (Some (String (ascii_of_nat 133) "42")) = None.
Proof. reflexivity. Qed.
Example rate_limit_no_break_space :
  rate_limit_response
    (APIError (Some 429)
       (Some {[ "retry-after" := String (ascii_of_nat 160) "42" ]}))
  = {| status := 429;
       body := RateLimit
                 "Rate limit exceeded. Please wait approximately 1 minutes before trying again."
                 42 "RATE_LIMIT_EXCEEDED" |}.
Proof. vm_compute. reflexivity. Qed.
Example Number_toString_62 : JS.Number_toString 62 = "62".
Proof. reflexivity. Qed.
Example wait_message_59 :
  wait_message 59
  = "Rate limit exceeded. Please wait approximately 1 minutes before trying again.".
Proof. reflexivity. Qed.
Example wait_message_3600 :
  wait_message 3600
  = "Rate limit exceeded. Please wait approximately 1 hours and 0 minutes before trying again.".
Proof. reflexivity. Qed.
Example available_model_mini : available_model "gpt-4o-mini" = JS.Str "gpt-4o-mini".
Proof. vm_compute. reflexivity. Qed.
Example available_model_gpt5 : available_model "gpt-5" = JS.Undefined.
Proof. vm_compute. reflexivity. Qed.
Example available_model_toString :
  available_model "toString" = JS.Function "toString".
Proof. vm_compute. reflexivity. Qed.
Example default_model_is_gpt_4o : default_model = JS.Str "gpt-4o".
Proof. vm_compute. reflexivity. Qed.
Example splice_loop_sample :
  MemoryVariant.splice_each
    (MemoryVariant.collect_indices (Nat.eqb 7) [7; 1; 7; 7; 2]%nat 0%nat [])
    [7; 1; 7; 7; 2]%nat
  = [1; 2]%nat.
Proof. reflexivity. Qed.
Example collect_indices_sample :
  MemoryVariant.collect_indices (Nat.eqb 7) [7; 1; 7; 7; 2]%nat 0%nat []
  = [3; 2; 0]%nat.
Proof. reflexivity. Qed.

(** ** parseInt on decimal numerals *)

Lemma digits_string_of_uint d :
  JS.digits 10 (NilEmpty.string_of_uint d) = uint_values d.
Proof.
  induction d; simpl; [reflexivity | rewrite IHd; reflexivity ..].
Qed.

Lemma fold_of_uint_acc d (acc : positive) :
  fold_left (JS.step 10) (uint_values d) (Z.pos acc) = Z.pos (Pos.of_uint_acc d acc).
Proof.
  revert acc; induction d; intros acc; simpl; try reflexivity;
    unfold JS.step at 2; rewrite <- IHd; f_equal; lia.
Qed.

Lemma number_of_uint d :
  JS.number_of 10 (uint_values d) = Z.of_N (Pos.of_uint d).
Proof.
  unfold JS.number_of.
  induction d; simpl; try reflexivity; try exact IHd;
    lazymatch goal with
    | |- _ = Z.pos (Pos.of_uint_acc _ ?a) => exact (fold_of_uint_acc d a)
    end.
Qed.

Lemma no_prefix_string_of_uint d :
  d <> Nil ->
  JS.strip_hex_prefix (snd (JS.strip_sign (JS.trim_start (NilEmpty.string_of_uint d))))
  = (10, NilEmpty.string_of_uint d)
  /\ fst (JS.strip_sign (JS.trim_start (NilEmpty.string_of_uint d))) = 1.
Proof.
  intros Hd. destruct d as [|d|d|d|d|d|d|d|d|d|d]; try congruence;
    try (split; reflexivity).
  destruct d; split; reflexivity.
Qed.

Lemma parseInt_string_of_uint d :
  d <> Nil ->
  JS.parseInt_string (NilEmpty.string_of_uint d) = Some (Z.of_N (Pos.of_uint d)).
Proof.
  intros Hd. unfold JS.parseInt_string.
  destruct (no_prefix_string_of_uint d Hd) as [Hp Hs].
  destruct (JS.strip_sign _) as [sign s1]; simpl in Hp, Hs; subst sign.
  rewrite Hp, digits_string_of_uint.
  rewrite <- number_of_uint.
  destruct d; try congruence; simpl uint_values; cbv iota;
    rewrite Z.mul_1_l; reflexivity.
Qed.

(** Printing a non-negative integer and parsing it back gives the integer. *)
Lemma parseInt_Number_toString (n : Z) :
  0 <= n -> JS.parseInt (Some (JS.Number_toString n)) = Some n.
Proof.
  intros Hn. unfold JS.parseInt, JS.Number_toString.
  destruct n as [|p|p]; [reflexivity | | lia].
  simpl. unfold NilZero.string_of_uint.
  pose proof (DecimalPos.Unsigned.to_uint_nonnil p) as Hnil.
  destruct (Pos.to_uint p) eqn:E; try congruence;
    rewrite <- E in *; rewrite parseInt_string_of_uint by assumption;
    rewrite DecimalPos.Unsigned.of_to; reflexivity.
Qed.


(** ** The chat handler: what happens around the completion call *)

Section Chat.
Context {St : Type}.
Variable save : string -> string -> ChatBody.t -> option string -> M St unit.

Lemma chat_throws req w e :
  answer w (completion_request (currentModel w) req) = inl e ->
  chat save req w = chat_catch e (sent req w).
Proof.
  intros H. unfold chat, try_catch, mbind, M_bind, get_model,
    chat_completions_create. rewrite H. reflexivity.
Qed.

Lemma chat_catch_429 e (w : World St) :
  error_status e = Some 429 ->
  chat_catch e w = (inr (rate_limit_response e), w).
Proof.
  intros H. unfold chat_catch. rewrite bool_decide_eq_true_2 by assumption.
  reflexivity.
Qed.

End Chat.

Lemma ceil_div_60_bounds s :
  (JS.ceil_div s 60 - 1) * 60 < s <= JS.ceil_div s 60 * 60.
Proof.
  unfold JS.ceil_div.
  pose proof (Z.div_mod (- s) 60 ltac:(lia)).
  pose proof (Z.mod_pos_bound (- s) 60 ltac:(lia)). lia.
Qed.

Lemma wait_message_shape s :
  0 <= s ->
  let minutes := JS.ceil_div s 60 in
  wait_message s =
    "Rate limit exceeded. Please wait approximately " +:+
    (if minutes <? 60
     then JS.Number_toString minutes +:+ " minutes before trying again."
     else JS.Number_toString (minutes / 60) +:+ " hours and " +:+
          JS.Number_toString (minutes mod 60) +:+
          " minutes before trying again.").
Proof.
  intros Hs minutes. unfold wait_message. fold minutes.
  unfold JS.floor_div.
  assert (0 <= minutes) by (pose proof (ceil_div_60_bounds s); subst minutes; lia).
  destruct (Z.ltb_spec minutes 60) as [Hlt|Hge].
  - rewrite Z.div_small by lia. reflexivity.
  - assert (0 < minutes / 60) by (apply Z.div_str_pos; lia).
    destruct (Z.ltb_spec 0 (minutes / 60)); [|lia].
    rewrite Z.rem_mod_nonneg by lia. reflexivity.
Qed.

(** C3, as the code has it: a 429 from the provider with a retry-after
    header of [secs] seconds is answered with status 429, code
    RATE_LIMIT_EXCEEDED, retryAfter [secs] and a message that counts the
    minutes rounded up, so that 3661 seconds read 1 hours and 2 minutes; the
    store is not touched. *)
Theorem chat_rate_limit_retry_after {St}
    (save : string -> string -> ChatBody.t -> option string -> M St unit)
    (req : ChatBody.t) (w : World St) (e : error) (secs : Z) :
  0 <= secs <= JS.MAX_SAFE_INTEGER ->
  answer w (completion_request (currentModel w) req) = inl e ->
  error_status e = Some 429 ->
  retry_after_header e = Some (JS.Number_toString secs) ->
  let minutes := JS.ceil_div secs 60 in
  fst (chat save req w)
    = inr {| status := 429;
             body := RateLimit (wait_message secs) secs "RATE_LIMIT_EXCEEDED" |}
  /\ store (snd (chat save req w)) = store w
  /\ (minutes - 1) * 60 < secs <= minutes * 60
  /\ wait_message secs =
       "Rate limit exceeded. Please wait approximately " +:+
       (if minutes <? 60
        then JS.Number_toString minutes +:+ " minutes before trying again."
        else JS.Number_toString (minutes / 60) +:+ " hours and " +:+
             JS.Number_toString (minutes mod 60) +:+
             " minutes before trying again.")
  /\ (secs = 3661 ->
      wait_message secs =
        "Rate limit exceeded. Please wait approximately 1 hours and 2 minutes before trying again.").
Proof.
  intros Hs Hans Hst Hh minutes.
  rewrite (chat_throws save req w e Hans), chat_catch_429 by assumption.
  unfold rate_limit_response. rewrite Hh, parseInt_Number_toString by lia.
  simpl. repeat split; try apply ceil_div_60_bounds.
  - apply wait_message_shape; lia.
  - intros ->. reflexivity.
Qed.

Lemma chat_rate_limit_retry_after_witness :
  fst (FileVariant.post_chat hello
         (sample_world (rate_limited (Some {[ "retry-after" := "7200" ]}))
            sample_disk))
  = inr {| status := 429;
           body := RateLimit (wait_message 7200) 7200 "RATE_LIMIT_EXCEEDED" |}.
Proof.
  refine (proj1 (chat_rate_limit_retry_after FileVariant.save_turn hello
                   (sample_world _ sample_disk)
                   (APIError (Some 429) (Some {[ "retry-after" := "7200" ]}))
                   7200 _ _ _ _)).
  - unfold JS.MAX_SAFE_INTEGER. lia.
  - reflexivity.
  - reflexivity.
  - vm_compute. reflexivity.
Defined.

(** C3 as stated fails at its own example: with retry-after 3661 the
    message reads 1 hours and 2 minutes, not 1 hours and 1 minutes. *)
Lemma chat_rate_limit_3661 :
  exists msg,
    fst (FileVariant.post_chat hello
           (sample_world (rate_limited (Some {[ "retry-after" := "3661" ]}))
              sample_disk))
    = inr {| status := 429; body := RateLimit msg 3661 "RATE_LIMIT_EXCEEDED" |}
    /\ JS.includes "1 hours and 1 minutes" msg = false
    /\ JS.includes "1 hours and 2 minutes" msg = true.
Proof.
  eexists. split; [vm_compute; reflexivity|]. split; vm_compute; reflexivity.
Qed.

(** C9: a 429 without a retry-after header, or with one that [parseInt]
    turns into NaN, is answered with retryAfter 0 and the zero-minutes
    message of the branch without hours. *)
Theorem chat_rate_limit_no_retry_after {St}
    (save : string -> string -> ChatBody.t -> option string -> M St unit)
    (req : ChatBody.t) (w : World St) (e : error) :
  answer w (completion_request (currentModel w) req) = inl e ->
  error_status e = Some 429 ->
  (retry_after_header e = None
   \/ exists h, retry_after_header e = Some h /\ JS.parseInt_string h = None) ->
  fst (chat save req w)
    = inr {| status := 429;
             body := RateLimit
                       "Rate limit exceeded. Please wait approximately 0 minutes before trying again."
                       0 "RATE_LIMIT_EXCEEDED" |}
  /\ store (snd (chat save req w)) = store w
  /\ (0 <? JS.floor_div (JS.ceil_div 0 60) 60) = false.
Proof.
  intros Hans Hst Hh.
  rewrite (chat_throws save req w e Hans), chat_catch_429 by assumption.
  assert (JS.parseInt (retry_after_header e) = None) as Hnan.
  { destruct Hh as [-> | (h & -> & Hp)]; [reflexivity | exact Hp]. }
  unfold rate_limit_response. rewrite Hnan. repeat split.
Qed.

Lemma chat_rate_limit_no_retry_after_witness :
  fst (FileVariant.post_chat hello
         (sample_world (rate_limited (Some {[ "retry-after" := "soon" ]}))
            sample_disk))
  = inr {| status := 429;
           body := RateLimit
                     "Rate limit exceeded. Please wait approximately 0 minutes before trying again."
                     0 "RATE_LIMIT_EXCEEDED" |}.
Proof.
  refine (proj1 (chat_rate_limit_no_retry_after FileVariant.save_turn hello
                   (sample_world _ sample_disk)
                   (APIError (Some 429) (Some {[ "retry-after" := "soon" ]}))
                   _ _ _)).
  - reflexivity.
  - reflexivity.
  - right. exists "soon". split; vm_compute; reflexivity.
Defined.

(** ** Model selection *)

Lemma available_model_own m :
  m ∈ map fst AVAILABLE_MODELS -> available_model m = JS.Str m.
Proof.
  simpl. rewrite !elem_of_cons, elem_of_nil.
  intros [->|[->|[->|[->|[]]]]]; vm_compute; reflexivity.
Qed.

Lemma available_model_unknown m :
  m ∉ map fst AVAILABLE_MODELS ->
  available_model m = JS.Object_prototype m.
Proof.
  intros Hm. unfold available_model, JS.get, JS.literal.
  rewrite (not_elem_of_list_to_map_1 (M := gmap string)); [reflexivity|].
  exact Hm.
Qed.

(** A supported identifier becomes the current model and is echoed back. *)
Lemma select_model_supported {St} (w : World St) m :
  m ∈ map fst AVAILABLE_MODELS ->
  select_model m w
  = (inr (json (ModelSelected (JS.Str m))), with_model (JS.Str m) w).
Proof.
  intros Hm. unfold select_model. rewrite (available_model_own m Hm).
  assert (JS.truthy (JS.Str m) = true) as ->.
  { revert Hm. simpl. rewrite !elem_of_cons, elem_of_nil.
    intros [->|[->|[->|[->|[]]]]]; reflexivity. }
  reflexivity.
Qed.

(** An identifier that is neither supported nor the name of a property of
    Object.prototype is rejected, and the current model stays. *)
Lemma select_model_rejected {St} (w : World St) m :
  m ∉ map fst AVAILABLE_MODELS ->
  JS.Object_prototype m = JS.Undefined ->
  select_model m w
  = (inr (status_json 400 (Failure "Invalid model selection")), w).
Proof.
  intros Hm Hp. unfold select_model.
  rewrite (available_model_unknown m Hm), Hp. reflexivity.
Qed.

(** C4 at the failing input: [constructor] is not one of the four
    identifiers, yet [AVAILABLE_MODELS[model]] finds the inherited
    property, so the request is answered with success and the current model
    becomes the function found there. *)
Theorem select_model_constructor {St} (w : World St) :
  ("constructor" ∉ map fst AVAILABLE_MODELS)
  /\ select_model "constructor" w
     = (inr {| status := 200;
               body := ModelSelected (JS.Function "Object") |},
        with_model (JS.Function "Object") w)
  /\ currentModel (snd (select_model "constructor" w)) = JS.Function "Object".
Proof.
  split; [|split; reflexivity].
  simpl. rewrite !elem_of_cons, elem_of_nil. intros [H|[H|[H|[H|[]]]]]; discriminate H.
Qed.

(** ** The prompt *)

Lemma text_or_default_spec message :
  (forall s, message = Some s -> s <> "" -> text_or_default message = s)
  /\ (message = None \/ message = Some "" ->
      text_or_default message = DEFAULT_IMAGE_PROMPT).
Proof.
  split.
  - intros s -> Hs. unfold text_or_default.
    destruct (String.eqb_spec s ""); [contradiction | reflexivity].
  - intros [-> | ->]; reflexivity.
Qed.

(** ** The chat handler: a completed call *)

Lemma chat_catch_world {St} e (w : World St) : snd (chat_catch e w) = w.
Proof.
  unfold chat_catch. repeat case_bool_decide; reflexivity.
Qed.

Lemma chat_catch_rethrows {St} what (w : World St) :
  chat_catch (TypeError what) w = (inl (TypeError what), w).
Proof. reflexivity. Qed.

Section ChatAnswered.
Context {St : Type}.
Variable save : string -> string -> ChatBody.t -> option string -> M St unit.

Lemma chat_answered req w completion c rest :
  answer w (completion_request (currentModel w) req) = inr completion ->
  Completion.choices completion = c :: rest ->
  chat save req w =
    let reply := Completion.content (Completion.message_of c) in
    match save (uuid_source (env w) (uuid_calls (env w)))
               (uuid_source (env w) (S (uuid_calls (env w)))) req reply
               (with_env (after_uuid (after_uuid (env (sent req w)))) w) with
    | (inr _, w') =>
        (inr (json (ChatReply reply (ChatBody.conversationId req))), w')
    | (inl e, w') => chat_catch e w'
    end.
Proof.
  intros Hans Hc. unfold chat, try_catch, mbind, M_bind, get_model,
    chat_completions_create, first_choice_message.
  rewrite Hans, Hc. unfold uuidv4, sent, with_env. simpl.
  match goal with |- context [save ?a ?b ?r ?p ?w0] =>
    destruct (save a b r p w0) as [[e|[]] w'] end; reflexivity.
Qed.

(** No first choice: the TypeError is thrown again by the [catch], and
    nothing was saved. *)
Lemma chat_no_choice req w completion :
  answer w (completion_request (currentModel w) req) = inr completion ->
  Completion.choices completion = [] ->
  exists what, chat save req w = (inl (TypeError what), sent req w).
Proof.
  intros Hans Hc. eexists. unfold chat, try_catch, mbind, M_bind, get_model,
    chat_completions_create, first_choice_message.
  rewrite Hans, Hc. reflexivity.
Qed.

Hypothesis save_keeps_log : forall a b r p w,
  api_calls (env (snd (save a b r p w))) = api_calls (env w).

Lemma chat_api_calls req w :
  api_calls (env (snd (chat save req w)))
  = api_calls (env w) ++ [completion_request (currentModel w) req].
Proof.
  destruct (answer w (completion_request (currentModel w) req))
    as [e|completion] eqn:Hans.
  - rewrite (chat_throws save req w e Hans), chat_catch_world. reflexivity.
  - destruct (Completion.choices completion) as [|c rest] eqn:Hc.
    + destruct (chat_no_choice req w completion Hans Hc) as [what ->].
      reflexivity.
    + rewrite (chat_answered req w completion c rest Hans Hc). cbv zeta.
      match goal with |- context [save ?a ?b ?r ?p ?w0] =>
        pose proof (save_keeps_log a b r p w0) as Hlog;
        destruct (save a b r p w0) as [[e|[]] w'] end.
      * rewrite chat_catch_world. exact Hlog.
      * exact Hlog.
Qed.

End ChatAnswered.

(** *** Saving the turn *)

Lemma file_save_turn id1 id2 req reply (w : World FileVariant.Disk) msgs :
  FileVariant.messages_json (store w) = Some msgs ->
  FileVariant.writable (store w) = true ->
  FileVariant.save_turn id1 id2 req reply w
  = (inr tt,
     {| env := after_clock (after_clock (env w));
        currentModel := currentModel w;
        store :=
          FileVariant.overwrite FileVariant.MESSAGES_FILE (store w)
            (msgs ++
             [user_record id1 req (clock (env w) (clock_reads (env w)));
              assistant_record id2 req reply
                (clock (env w) (S (clock_reads (env w))))]) |}).
Proof.
  destruct w as [e m [cj mj dj wr]]. simpl. intros -> ->.
  unfold FileVariant.save_turn, mbind, M_bind. simpl.
  rewrite <- app_assoc. reflexivity.
Qed.

Lemma file_save_turn_unreadable id1 id2 req reply (w : World FileVariant.Disk) :
  FileVariant.messages_json (store w) = None ->
  exists what,
    FileVariant.save_turn id1 id2 req reply w = (inl (TypeError what), w).
Proof.
  destruct w as [e m [cj mj dj wr]]. simpl. intros ->.
  eexists. reflexivity.
Qed.

Lemma file_save_turn_read_only id1 id2 req reply (w : World FileVariant.Disk) msgs :
  FileVariant.messages_json (store w) = Some msgs ->
  FileVariant.writable (store w) = false ->
  FileVariant.save_turn id1 id2 req reply w
  = (inr tt, with_env (after_clock (after_clock (env w))) w).
Proof.
  destruct w as [e m [cj mj dj wr]]. simpl. intros -> ->. reflexivity.
Qed.

Lemma file_save_turn_log id1 id2 req reply (w : World FileVariant.Disk) :
  api_calls (env (snd (FileVariant.save_turn id1 id2 req reply w)))
  = api_calls (env w).
Proof.
  destruct w as [e m [cj [msgs|] dj [|]]]; reflexivity.
Qed.

Lemma memory_save_turn id1 id2 req reply (w : World MemoryVariant.Memory) :
  MemoryVariant.save_turn id1 id2 req reply w
  = (inr tt,
     {| env := after_clock (after_clock (env w));
        currentModel := currentModel w;
        store :=
          MemoryVariant.with_MESSAGES
            (MemoryVariant.MESSAGES (store w) ++
             [user_record id1 req (clock (env w) (clock_reads (env w)));
              assistant_record id2 req reply
                (clock (env w) (S (clock_reads (env w))))])
            (store w) |}).
Proof.
  destruct w as [e m [cs ms ds]].
  unfold MemoryVariant.save_turn, mbind, M_bind. simpl.
  unfold MemoryVariant.with_MESSAGES. simpl.
  rewrite <- app_assoc. reflexivity.
Qed.

(** C5: with N >= 1 attachments the user turn is one text part (the
    request text, or the default prompt when the text is empty or absent)
    followed by N image parts carrying the attachments' payloads in order;
    with no attachment it is the plain request text.  The turn is the
    second and last message of the request the handler sends. *)
Theorem user_turn_shape (req : ChatBody.t) :
  (forall w : World FileVariant.Disk,
     exists request,
       api_calls (env (snd (FileVariant.post_chat req w)))
         = api_calls (env w) ++ [request]
       /\ Prompt.messages request = [system_message; user_message req])
  /\ Prompt.role (user_message req) = "user"
  /\ (forall files, ChatBody.files req = Some files -> (1 <= length files)%nat ->
      exists images,
        Prompt.content_of (user_message req)
          = Prompt.parts
              (Prompt.text (text_or_default (ChatBody.message req)) :: images)
        /\ length images = length files
        /\ Forall is_image images
        /\ (forall i file, files !! i = Some file ->
              images !! i = Some (Prompt.image_url (ChatBody.data file)))
        /\ (forall s, ChatBody.message req = Some s -> s <> "" ->
              text_or_default (ChatBody.message req) = s)
        /\ (ChatBody.message req = None \/ ChatBody.message req = Some "" ->
              text_or_default (ChatBody.message req) = DEFAULT_IMAGE_PROMPT))
  /\ (ChatBody.files req = None \/ ChatBody.files req = Some [] ->
      Prompt.content_of (user_message req)
        = Prompt.plain (ChatBody.message req)).
Proof.
  split.
  { intros w. exists (completion_request (currentModel w) req).
    split; [|reflexivity].
    apply (chat_api_calls FileVariant.save_turn file_save_turn_log). }
  split.
  { unfold user_message. destruct (ChatBody.files req) as [[|]|]; reflexivity. }
  split.
  - intros files Hf Hlen.
    exists (map (fun file => Prompt.image_url (ChatBody.data file)) files).
    unfold user_message. rewrite Hf.
    destruct files as [|f fs]; [simpl in Hlen; lia|].
    split; [reflexivity|]. split; [apply length_map|]. split.
    { apply Forall_forall. intros p Hp. apply list_elem_of_fmap in Hp.
      destruct Hp as (file & -> & _). exact I. }
    split.
    { intros i file Hi. rewrite list_lookup_fmap, Hi. reflexivity. }
    apply text_or_default_spec.
  - unfold user_message. intros [-> | ->]; reflexivity.
Qed.

Lemma user_turn_shape_witness :
  (exists images,
     Prompt.content_of
       (user_message
          (ChatBody.mk (Some "") (Some "c1")
             (Some [{| ChatBody.data := "data:image/png;base64,AAAA" |};
                    {| ChatBody.data := "data:image/png;base64,BBBB" |}])))
     = Prompt.parts (Prompt.text "What do you see in these images?" :: images)
     /\ length images = 2%nat)
  /\ Prompt.content_of (user_message hello) = Prompt.plain (Some "Hello").
Proof.
  pose proof (user_turn_shape
                (ChatBody.mk (Some "") (Some "c1")
                   (Some [{| ChatBody.data := "data:image/png;base64,AAAA" |};
                          {| ChatBody.data := "data:image/png;base64,BBBB" |}])))
    as (_ & _ & Himg & _).
  pose proof (user_turn_shape hello) as (_ & _ & _ & Hplain).
  split.
  - destruct (Himg _ eq_refl ltac:(simpl; lia))
      as (images & Hc & Hlen & _ & _ & _ & Hd).
    exists images. split; [|exact Hlen].
    rewrite Hc, (Hd (or_intror eq_refl)). reflexivity.
  - apply Hplain. left. reflexivity.
Defined.

(** C7: the chat handler sends exactly one completion request, whose
    messages are the fixed system instruction (role system) followed by the
    single user turn (role user, carrying the request text, or the text and
    the attached images), with max_tokens 1000 and the current model; when
    the provider answers, the reply sent back is the content of the first
    choice's message. *)
Theorem chat_completion_call (req : ChatBody.t) :
  (forall w : World FileVariant.Disk,
     api_calls (env (snd (FileVariant.post_chat req w)))
     = api_calls (env w) ++
       [{| Prompt.model := currentModel w;
           Prompt.messages :=
             [{| Prompt.role := "system";
                 Prompt.content_of := Prompt.plain (Some SYSTEM_INSTRUCTION) |};
              {| Prompt.role := "user";
                 Prompt.content_of :=
                   match ChatBody.files req with
                   | Some ((_ :: _) as files) =>
                       Prompt.parts
                         (Prompt.text
                            match ChatBody.message req with
                            | Some s =>
                                if String.eqb s ""
                                then "What do you see in these images?"
                                else s
                            | None => "What do you see in these images?"
                            end
                          :: map (fun file =>
                                    Prompt.image_url (ChatBody.data file)) files)
                   | _ => Prompt.plain (ChatBody.message req)
                   end |}];
           Prompt.max_tokens := 1000 |}])
  /\ (forall (w : World FileVariant.Disk) completion c rest msgs,
        answer w (completion_request (currentModel w) req) = inr completion ->
        Completion.choices completion = c :: rest ->
        FileVariant.messages_json (store w) = Some msgs ->
        fst (FileVariant.post_chat req w)
        = inr {| status := 200;
                 body := ChatReply (Completion.content (Completion.message_of c))
                           (ChatBody.conversationId req) |})
  /\ (forall w : World MemoryVariant.Memory,
        api_calls (env (snd (MemoryVariant.post_chat req w)))
        = api_calls (env w) ++
          [{| Prompt.model := currentModel w;
              Prompt.messages :=
                [{| Prompt.role := "system";
                    Prompt.content_of :=
                      Prompt.plain (Some SYSTEM_INSTRUCTION) |};
                 {| Prompt.role := "user";
                    Prompt.content_of :=
                      match ChatBody.files req with
                      | Some ((_ :: _) as files) =>
                          Prompt.parts
                            (Prompt.text
                               match ChatBody.message req with
                               | Some s =>
                                   if String.eqb s ""
                                   then "What do you see in these images?"
                                   else s
                               | None => "What do you see in these images?"
                               end
                             :: map (fun file =>
                                       Prompt.image_url (ChatBody.data file))
                                  files)
                      | _ => Prompt.plain (ChatBody.message req)
                      end |}];
              Prompt.max_tokens := 1000 |}])
  /\ (forall (w : World MemoryVariant.Memory) completion c rest,
        answer w (completion_request (currentModel w) req) = inr completion ->
        Completion.choices completion = c :: rest ->
        fst (MemoryVariant.post_chat req w)
        = inr {| status := 200;
                 body := ChatReply (Completion.content (Completion.message_of c))
                           (ChatBody.conversationId req) |})
  /\ (String.prefix
        "You are an advanced AI assistant specialized in programming and mathematics. Your capabilities include:"
        SYSTEM_INSTRUCTION = true
      /\ JS.includes
           "For mathematical problems, show step-by-step solutions with clear reasoning."
           SYSTEM_INSTRUCTION = true
      /\ String.length SYSTEM_INSTRUCTION = 889%nat).
Proof.
  assert ({| Prompt.role := "user";
             Prompt.content_of :=
               match ChatBody.files req with
               | Some ((_ :: _) as files) =>
                   Prompt.parts
                     (Prompt.text
                        match ChatBody.message req with
                        | Some s =>
                            if String.eqb s ""
                            then "What do you see in these images?"
                            else s
                        | None => "What do you see in these images?"
                        end
                      :: map (fun file =>
                                Prompt.image_url (ChatBody.data file)) files)
               | _ => Prompt.plain (ChatBody.message req)
               end |} = user_message req) as Huser.
  { unfold user_message, text_or_default, DEFAULT_IMAGE_PROMPT.
    destruct (ChatBody.files req) as [[|f fs]|]; reflexivity. }
  split; [|split; [|split; [|split]]].
  - intros w. rewrite Huser.
    apply (chat_api_calls FileVariant.save_turn file_save_turn_log).
  - intros w completion c rest msgs Hans Hc Hm.
    unfold FileVariant.post_chat.
    rewrite (chat_answered _ req w completion c rest Hans Hc). cbv zeta.
    destruct (FileVariant.writable (store w)) eqn:Hw.
    + rewrite (file_save_turn _ _ _ _ _ msgs) by assumption. reflexivity.
    + rewrite (file_save_turn_read_only _ _ _ _ _ msgs) by assumption.
      reflexivity.
  - intros w. rewrite Huser. apply (chat_api_calls MemoryVariant.save_turn).
    intros a b r p w0. rewrite memory_save_turn. reflexivity.
  - intros w completion c rest Hans Hc.
    unfold MemoryVariant.post_chat.
    rewrite (chat_answered _ req w completion c rest Hans Hc). cbv zeta.
    rewrite memory_save_turn. reflexivity.
  - repeat split; vm_compute; reflexivity.
Qed.

Lemma chat_completion_call_witness :
  fst (FileVariant.post_chat hello (sample_world (replying "Hi there") sample_disk))
  = inr {| status := 200; body := ChatReply (Some "Hi there") (Some "c1") |}.
Proof.
  refine (proj1 (proj2 (chat_completion_call hello))
            (sample_world (replying "Hi there") sample_disk)
            {| Completion.choices := [choice_of "Hi there"] |}
            (choice_of "Hi there") [] [] _ _ _); reflexivity.
Defined.

(** ** Listing messages *)

Lemma file_get_messages id (w : World FileVariant.Disk) msgs :
  FileVariant.messages_json (store w) = Some msgs ->
  FileVariant.get_messages id w
  = (inr (json (Messages
                  (filter (fun msg => Message.conversation_id msg = Some id
                                      ∧ Message.message_type msg = Some "chat")
                     msgs))), w).
Proof.
  destruct w as [e m [cj mj dj wr]]. simpl. intros ->. reflexivity.
Qed.

Lemma memory_get_messages id (w : World MemoryVariant.Memory) :
  MemoryVariant.get_messages id w
  = (inr (json (Messages
                  (filter (fun msg => Message.conversation_id msg = Some id)
                     (MemoryVariant.MESSAGES (store w))))), w).
Proof. reflexivity. Qed.

(** ** A chat turn and the store *)

Section Turn.
Variable req : ChatBody.t.

Lemma file_chat_failed (w : World FileVariant.Disk) e :
  answer w (completion_request (currentModel w) req) = inl e ->
  store (snd (FileVariant.post_chat req w)) = store w.
Proof.
  intros Hans. unfold FileVariant.post_chat.
  rewrite (chat_throws _ req w e Hans), chat_catch_world. reflexivity.
Qed.

Lemma memory_chat_failed (w : World MemoryVariant.Memory) e :
  answer w (completion_request (currentModel w) req) = inl e ->
  store (snd (MemoryVariant.post_chat req w)) = store w.
Proof.
  intros Hans. unfold MemoryVariant.post_chat.
  rewrite (chat_throws _ req w e Hans), chat_catch_world. reflexivity.
Qed.

Lemma file_chat_saved (w : World FileVariant.Disk) completion c rest msgs :
  answer w (completion_request (currentModel w) req) = inr completion ->
  Completion.choices completion = c :: rest ->
  FileVariant.messages_json (store w) = Some msgs ->
  FileVariant.writable (store w) = true ->
  store (snd (FileVariant.post_chat req w))
  = FileVariant.overwrite FileVariant.MESSAGES_FILE (store w)
      (msgs ++ [user_of_turn req w; assistant_of_turn req w (Completion.content (Completion.message_of c))]).
Proof.
  intros Hans Hc Hm Hw. unfold FileVariant.post_chat.
  rewrite (chat_answered _ req w completion c rest Hans Hc). cbv zeta.
  rewrite (file_save_turn _ _ _ _ _ msgs) by assumption. reflexivity.
Qed.

Lemma memory_chat_saved (w : World MemoryVariant.Memory) completion c rest :
  answer w (completion_request (currentModel w) req) = inr completion ->
  Completion.choices completion = c :: rest ->
  store (snd (MemoryVariant.post_chat req w))
  = MemoryVariant.with_MESSAGES
      (MemoryVariant.MESSAGES (store w)
       ++ [user_of_turn req w; assistant_of_turn req w (Completion.content (Completion.message_of c))])
      (store w).
Proof.
  intros Hans Hc. unfold MemoryVariant.post_chat.
  rewrite (chat_answered _ req w completion c rest Hans Hc). cbv zeta.
  rewrite memory_save_turn. reflexivity.
Qed.

(** C1: when the completion call throws, the store is as before; when it
    answers (with a first choice), exactly two messages are appended for
    the conversation id of the request, the user's text and then the
    assistant's reply, and the conversation's listing ends with them in
    that order.  For the file variant the messages document must be
    readable and the disk writable. *)
Theorem chat_turn_persisted :
  (forall (w : World FileVariant.Disk) e,
     answer w (completion_request (currentModel w) req) = inl e ->
     store (snd (FileVariant.post_chat req w)) = store w)
  /\ (forall (w : World MemoryVariant.Memory) e,
     answer w (completion_request (currentModel w) req) = inl e ->
     store (snd (MemoryVariant.post_chat req w)) = store w)
  /\ (forall (w : World FileVariant.Disk) completion c rest msgs cid,
     answer w (completion_request (currentModel w) req) = inr completion ->
     Completion.choices completion = c :: rest ->
     FileVariant.messages_json (store w) = Some msgs ->
     FileVariant.writable (store w) = true ->
     ChatBody.conversationId req = Some cid ->
     let w' := snd (FileVariant.post_chat req w) in
     exists u a before,
       FileVariant.messages_json (store w') = Some (msgs ++ [u; a])
       /\ FileVariant.conversations_json (store w')
          = FileVariant.conversations_json (store w)
       /\ FileVariant.debug_messages_json (store w')
          = FileVariant.debug_messages_json (store w)
       /\ (Message.role u = "user"
           /\ Message.content u = ChatBody.message req
           /\ Message.conversation_id u = Some cid)
       /\ (Message.role a = "assistant"
           /\ Message.content a = Completion.content (Completion.message_of c)
           /\ Message.conversation_id a = Some cid)
       /\ fst (FileVariant.get_messages cid w) = inr (json (Messages before))
       /\ fst (FileVariant.get_messages cid w')
          = inr (json (Messages (before ++ [u; a]))))
  /\ (forall (w : World MemoryVariant.Memory) completion c rest cid,
     answer w (completion_request (currentModel w) req) = inr completion ->
     Completion.choices completion = c :: rest ->
     ChatBody.conversationId req = Some cid ->
     let w' := snd (MemoryVariant.post_chat req w) in
     exists u a before,
       MemoryVariant.MESSAGES (store w')
       = MemoryVariant.MESSAGES (store w) ++ [u; a]
       /\ MemoryVariant.CONVERSATIONS (store w')
          = MemoryVariant.CONVERSATIONS (store w)
       /\ MemoryVariant.DEBUG_MESSAGES (store w')
          = MemoryVariant.DEBUG_MESSAGES (store w)
       /\ (Message.role u = "user"
           /\ Message.content u = ChatBody.message req
           /\ Message.conversation_id u = Some cid)
       /\ (Message.role a = "assistant"
           /\ Message.content a = Completion.content (Completion.message_of c)
           /\ Message.conversation_id a = Some cid)
       /\ fst (MemoryVariant.get_messages cid w) = inr (json (Messages before))
       /\ fst (MemoryVariant.get_messages cid w')
          = inr (json (Messages (before ++ [u; a])))).
Proof.
  split; [exact file_chat_failed|]. split; [exact memory_chat_failed|]. split.
  - intros w completion c rest msgs cid Hans Hc Hm Hw Hcid w'.
    pose proof (file_chat_saved w completion c rest msgs Hans Hc Hm Hw) as Hs.
    fold w' in Hs.
    exists (user_of_turn req w), (assistant_of_turn req w (Completion.content (Completion.message_of c))).
    eexists.
    assert (FileVariant.messages_json (store w')
            = Some (msgs ++ [user_of_turn req w;
                      assistant_of_turn req w (Completion.content (Completion.message_of c))]))
      as Hm' by (rewrite Hs; reflexivity).
    split; [exact Hm'|]. split; [rewrite Hs; reflexivity|].
    split; [rewrite Hs; reflexivity|].
    split; [repeat split; exact Hcid|]. split; [repeat split; exact Hcid|].
    rewrite (file_get_messages cid w msgs Hm), (file_get_messages cid w' _ Hm').
    split; [reflexivity|]. simpl. rewrite filter_app. do 3 f_equal.
    rewrite !filter_cons_True by (split; [exact Hcid | reflexivity]).
    reflexivity.
  - intros w completion c rest cid Hans Hc Hcid w'.
    pose proof (memory_chat_saved w completion c rest Hans Hc) as Hs.
    fold w' in Hs.
    exists (user_of_turn req w), (assistant_of_turn req w (Completion.content (Completion.message_of c))).
    eexists.
    split; [rewrite Hs; reflexivity|]. split; [rewrite Hs; reflexivity|].
    split; [rewrite Hs; reflexivity|].
    split; [repeat split; exact Hcid|]. split; [repeat split; exact Hcid|].
    rewrite !memory_get_messages, Hs.
    split; [reflexivity|]. simpl. rewrite filter_app. do 3 f_equal.
    rewrite !filter_cons_True by exact Hcid.
    reflexivity.
Qed.

End Turn.

Lemma chat_turn_persisted_witness :
  store (snd (MemoryVariant.post_chat hello
                (sample_world (rate_limited None) sample_memory)))
  = sample_memory
  /\ exists u a before,
       FileVariant.messages_json
         (store (snd (FileVariant.post_chat hello
                        (sample_world (replying "Hi there") sample_disk))))
       = Some ([] ++ [u; a])
       /\ fst (FileVariant.get_messages "c1"
                 (snd (FileVariant.post_chat hello
                         (sample_world (replying "Hi there") sample_disk))))
          = inr (json (Messages (before ++ [u; a]))).
Proof.
  pose proof (chat_turn_persisted hello) as (_ & Hfail & Hfile & _).
  split.
  - refine (Hfail (sample_world (rate_limited None) sample_memory)
              (APIError (Some 429) None) _). reflexivity.
  - destruct (Hfile (sample_world (replying "Hi there") sample_disk)
                {| Completion.choices := [choice_of "Hi there"] |}
                (choice_of "Hi there") [] [] "c1"
                eq_refl eq_refl eq_refl eq_refl eq_refl)
      as (u & a & before & Hm & _ & _ & _ & _ & _ & Hl).
    exists u, a, before. split; assumption.
Defined.

(** ** The splice loop of the in-memory deletion *)

Section Splice.
Context {A : Type} (p : A -> bool).

Lemma splice_collect (arr pre : list A) (indices : list nat) :
  MemoryVariant.splice_each
    (MemoryVariant.collect_indices p arr (length pre) indices) (pre ++ arr)
  = MemoryVariant.splice_each indices
      (pre ++ filter (fun x => p x = false) arr).
Proof.
  revert pre indices. induction arr as [|x rest IH]; intros pre indices.
  - reflexivity.
  - simpl MemoryVariant.collect_indices.
    specialize (IH (pre ++ [x]) (if p x then length pre :: indices else indices)).
    rewrite length_app, Nat.add_1_r, <- app_assoc in IH. simpl in IH.
    rewrite IH. destruct (p x) eqn:Hx.
    + rewrite filter_cons_False by congruence.
      unfold MemoryVariant.splice_each. simpl fold_left.
      rewrite <- app_assoc. simpl. rewrite delete_middle. reflexivity.
    + rewrite filter_cons_True by assumption.
      rewrite <- app_assoc. reflexivity.
Qed.

(** The loop removes exactly the elements that satisfy [p]. *)
Lemma splice_collect_all (arr : list A) :
  MemoryVariant.splice_each (MemoryVariant.collect_indices p arr 0 []) arr
  = filter (fun x => p x = false) arr.
Proof. exact (splice_collect arr [] []). Qed.

End Splice.

Lemma splice_loop_filter (id : string) (arr : list Message.t) :
  MemoryVariant.remove_messages_of id arr = without_conversation id arr.
Proof.
  unfold MemoryVariant.remove_messages_of, without_conversation.
  rewrite splice_collect_all. apply list_filter_iff. intros msg.
  rewrite bool_decide_eq_false. reflexivity.
Qed.

(** C10: the splice loop over the indices collected in descending order
    leaves MESSAGES, and DEBUG_MESSAGES likewise, equal to filtering out the
    messages of the deleted conversation, the remaining ones in their
    order. *)
Theorem remove_messages_of_is_filter (id : string) :
  (forall arr : list Message.t,
     MemoryVariant.remove_messages_of id arr = without_conversation id arr
     /\ without_conversation id arr `sublist_of` arr)
  /\ (forall w : World MemoryVariant.Memory,
     let w' := snd (MemoryVariant.delete_conversation id w) in
     MemoryVariant.MESSAGES (store w')
     = without_conversation id (MemoryVariant.MESSAGES (store w))
     /\ MemoryVariant.DEBUG_MESSAGES (store w')
        = without_conversation id (MemoryVariant.DEBUG_MESSAGES (store w))).
Proof.
  split.
  - intros arr. split; [apply splice_loop_filter | apply sublist_filter].
  - intros w. simpl. rewrite !splice_loop_filter. split; reflexivity.
Qed.

(** ** Order of creation *)

Section DrawnInOrder.
Context {A : Type} (key : A -> string) (source : nat -> string).

Lemma StronglySorted_sublist (R : relation A) (l1 l2 : list A) :
  l1 `sublist_of` l2 -> StronglySorted R l2 -> StronglySorted R l1.
Proof.
  induction 1 as [|x l1 l2 Hsub IH|x l1 l2 Hsub IH]; intros Hs.
  - constructor.
  - apply StronglySorted_inv in Hs as [Hs Hx]. constructor; [auto|].
    rewrite Forall_forall in Hx |- *. intros y Hy. apply Hx.
    eapply sublist_subseteq; eassumption.
  - apply StronglySorted_inv in Hs as [Hs _]. auto.
Qed.

Lemma drawn_in_order_nil n : drawn_in_order key source n [].
Proof. split; constructor. Qed.

Lemma drawn_in_order_mono n n' l :
  (n <= n')%nat -> drawn_in_order key source n l ->
  drawn_in_order key source n' l.
Proof.
  intros Hn [Hall Hs]. split; [|exact Hs].
  eapply Forall_impl; [exact Hall|]. intros x (k & Hk & Hx).
  exists k. split; [lia | exact Hx].
Qed.

Lemma drawn_in_order_sublist n l l' :
  l' `sublist_of` l -> drawn_in_order key source n l ->
  drawn_in_order key source n l'.
Proof.
  intros Hsub [Hall Hs]. split.
  - rewrite Forall_forall in Hall |- *. intros x Hx. apply Hall.
    eapply sublist_subseteq; eassumption.
  - eapply StronglySorted_sublist; eassumption.
Qed.

Lemma drawn_in_order_snoc n l x :
  key x = source n -> drawn_in_order key source n l ->
  drawn_in_order key source (S n) (l ++ [x]).
Proof.
  intros Hx [Hall Hs]. split.
  - apply Forall_app. split.
    + eapply Forall_impl; [exact Hall|]. intros y (k & Hk & Hy).
      exists k. split; [lia | exact Hy].
    + repeat constructor. exists n. split; [lia | exact Hx].
  - apply StronglySorted_app_2; [|exact Hs|repeat constructor].
    intros y z Hy Hz. apply list_elem_of_singleton in Hz as ->.
    rewrite Forall_forall in Hall. destruct (Hall y Hy) as (k & Hk & Hky).
    exists k, n. auto.
Qed.

(** With a source that never repeats, the keys are pairwise distinct. *)
Lemma drawn_in_order_NoDup n l :
  Inj (=) (=) source -> drawn_in_order key source n l -> NoDup (map key l).
Proof.
  intros Hinj [_ Hs]. induction Hs as [|x l Hs IH Hx]; simpl.
  - constructor.
  - constructor; [|exact IH]. intros Hin.
    apply list_elem_of_fmap in Hin as (y & Hxy & Hy).
    rewrite Forall_forall in Hx. destruct (Hx y Hy) as (i & j & Hij & Hi & Hj).
    rewrite Hi, Hj in Hxy. apply Hinj in Hxy. lia.
Qed.

(** With a source that is monotone for an order, the keys are sorted. *)
Lemma drawn_in_order_sorted (le : relation string) n l :
  (forall i j, (i <= j)%nat -> le (source i) (source j)) ->
  drawn_in_order key source n l ->
  StronglySorted (fun x y => le (key x) (key y)) l.
Proof.
  intros Hmono [_ Hs]. induction Hs as [|x l Hs IH Hx]; constructor; auto.
  eapply Forall_impl; [exact Hx|]. intros y (i & j & Hij & -> & ->).
  apply Hmono. lia.
Qed.

End DrawnInOrder.

(** ** The in-memory variant: what a request does to the world *)

Lemma memory_post_chat_world req (w : World MemoryVariant.Memory) :
  let w' := snd (MemoryVariant.post_chat req w) in
  w' = sent req w
  \/ exists reply,
       w' = {| env := after_clock (after_clock (after_uuid (after_uuid
                        (env (sent req w)))));
               currentModel := currentModel w;
               store :=
                 MemoryVariant.with_MESSAGES
                   (MemoryVariant.MESSAGES (store w) ++
                    [user_record (uuid_source (env w) (uuid_calls (env w))) req
                       (clock (env w) (clock_reads (env w)));
                     assistant_record
                       (uuid_source (env w) (S (uuid_calls (env w)))) req reply
                       (clock (env w) (S (clock_reads (env w))))])
                   (store w) |}.
Proof.
  intros w'. subst w'. unfold MemoryVariant.post_chat.
  destruct (answer w (completion_request (currentModel w) req))
    as [e|completion] eqn:Hans.
  - left. rewrite (chat_throws _ req w e Hans). apply chat_catch_world.
  - destruct (Completion.choices completion) as [|c rest] eqn:Hc.
    + left. destruct (chat_no_choice MemoryVariant.save_turn req w completion
                        Hans Hc) as [what ->]. reflexivity.
    + right. exists (Completion.content (Completion.message_of c)).
      rewrite (chat_answered _ req w completion c rest Hans Hc). cbv zeta.
      rewrite memory_save_turn. reflexivity.
Qed.

Lemma remove_conversation_sublist id (arr : list Conversation.t) :
  MemoryVariant.remove_conversation id arr `sublist_of` arr.
Proof.
  unfold MemoryVariant.remove_conversation.
  destruct (list_find _ arr) as [[i c]|]; [apply sublist_delete | reflexivity].
Qed.

Lemma Forall_sublist {A} (P : A -> Prop) (l l' : list A) :
  l' `sublist_of` l -> Forall P l -> Forall P l'.
Proof.
  intros Hsub. rewrite !Forall_forall. intros Hall x Hx. apply Hall.
  eapply sublist_subseteq; eassumption.
Qed.

Lemma memory_invariant_initial e : MemoryVariant.invariant (MemoryVariant.initial e).
Proof.
  repeat split; constructor.
Qed.

Lemma memory_invariant_step r (w : World MemoryVariant.Memory) :
  MemoryVariant.invariant w ->
  MemoryVariant.invariant (snd (MemoryVariant.handle r w)).
Proof.
  intros (Hchat & Hdebug & Htime & Hids).
  destruct r as [ | id | id | title | req | message conversationId | | model | id];
    simpl MemoryVariant.handle.
  - exact (conj Hchat (conj Hdebug (conj Htime Hids))).
  - exact (conj Hchat (conj Hdebug (conj Htime Hids))).
  - exact (conj Hchat (conj Hdebug (conj Htime Hids))).
  - (* POST /api/conversations *)
    split; [exact Hchat|]. split; [exact Hdebug|]. split.
    + eapply drawn_in_order_mono; [|exact Htime]. simpl. lia.
    + simpl. apply drawn_in_order_snoc; [reflexivity | exact Hids].
  - (* POST /api/chat *)
    destruct (memory_post_chat_world req w) as [-> | [reply ->]].
    + exact (conj Hchat (conj Hdebug (conj Htime Hids))).
    + split; [|split; [exact Hdebug|split]]; simpl.
      * apply Forall_app. split; [exact Hchat | repeat constructor].
      * change (MemoryVariant.MESSAGES (store w) ++ [?u; ?a])
          with (MemoryVariant.MESSAGES (store w) ++ [u] ++ [a]).
        rewrite app_assoc.
        apply drawn_in_order_snoc; [reflexivity|].
        apply drawn_in_order_snoc; [reflexivity | exact Htime].
      * eapply drawn_in_order_mono; [|exact Hids]. lia.
  - (* POST /api/chat/debug *)
    split; [exact Hchat|]. split; [|split]; simpl.
    + apply Forall_app. split; [exact Hdebug | repeat constructor].
    + eapply drawn_in_order_mono; [|exact Htime]. lia.
    + eapply drawn_in_order_mono; [|exact Hids]. lia.
  - exact (conj Hchat (conj Hdebug (conj Htime Hids))).
  - (* POST /api/models/select *)
    unfold select_model. destruct (JS.truthy (available_model model));
      exact (conj Hchat (conj Hdebug (conj Htime Hids))).
  - (* DELETE /api/conversations/:id *)
    split; [|split; [|split]]; simpl; rewrite ?splice_loop_filter.
    + eapply Forall_sublist; [apply sublist_filter | exact Hchat].
    + eapply Forall_sublist; [apply sublist_filter | exact Hdebug].
    + eapply drawn_in_order_sublist; [apply sublist_filter | exact Htime].
    + eapply drawn_in_order_sublist;
        [apply remove_conversation_sublist | exact Hids].
Qed.

Lemma memory_reachable_invariant (w : World MemoryVariant.Memory) :
  MemoryVariant.reachable w -> MemoryVariant.invariant w.
Proof.
  induction 1 as [e | w r Hw IH].
  - apply memory_invariant_initial.
  - apply memory_invariant_step, IH.
Qed.

(** ** Deleting a conversation *)

Lemma filter_all {A} (P : A -> Prop) `{forall x, Decision (P x)} (l : list A) :
  Forall P l -> filter P l = l.
Proof.
  induction 1 as [|x l Hx Hl IH]; [reflexivity|].
  rewrite filter_cons_True by assumption. f_equal. exact IH.
Qed.

(** With pairwise distinct ids, [findIndex] and one [splice] remove every
    conversation with the id. *)
Lemma remove_conversation_filter id (arr : list Conversation.t) :
  NoDup (map Conversation.id arr) ->
  MemoryVariant.remove_conversation id arr
  = filter (fun conv => Conversation.id conv ≠ id) arr.
Proof.
  unfold MemoryVariant.remove_conversation.
  induction arr as [|x l IH]; intros Hnd; [reflexivity|].
  simpl in Hnd. apply NoDup_cons in Hnd as [Hx Hl].
  simpl list_find. case_decide as Hid.
  - simpl. rewrite filter_cons_False by (intros Hne; exact (Hne Hid)).
    symmetry. apply filter_all. apply Forall_forall. intros y Hy Heq.
    apply Hx. rewrite Hid, <- Heq. apply list_elem_of_fmap. eauto.
  - rewrite filter_cons_True by assumption.
    specialize (IH Hl). destruct (list_find _ l) as [[i c]|]; simpl.
    + f_equal. exact IH.
    + f_equal. exact IH.
Qed.

Lemma remove_conversation_absent id (arr : list Conversation.t) :
  id ∉ map Conversation.id arr ->
  MemoryVariant.remove_conversation id arr = arr.
Proof.
  intros Hid. unfold MemoryVariant.remove_conversation.
  destruct (list_find _ arr) as [[i c]|] eqn:Hf; [|reflexivity].
  apply list_find_Some in Hf as (Hi & Hc & _). exfalso. apply Hid.
  apply list_elem_of_fmap. exists c. split; [auto|].
  eapply list_elem_of_lookup_2; eassumption.
Qed.

Lemma without_conversation_spec id (arr : list Message.t) msg :
  msg ∈ without_conversation id arr
  <-> msg ∈ arr /\ Message.conversation_id msg ≠ Some id.
Proof.
  unfold without_conversation. rewrite list_elem_of_filter. tauto.
Qed.

Lemma file_delete_conversation id (w : World FileVariant.Disk) cs ms ds :
  FileVariant.conversations_json (store w) = Some cs ->
  FileVariant.messages_json (store w) = Some ms ->
  FileVariant.debug_messages_json (store w) = Some ds ->
  FileVariant.writable (store w) = true ->
  FileVariant.delete_conversation id w
  = (inr (json Success),
     with_store
       {| FileVariant.conversations_json :=
            Some (filter (fun conv => Conversation.id conv ≠ id) cs);
          FileVariant.messages_json := Some (without_conversation id ms);
          FileVariant.debug_messages_json := Some (without_conversation id ds);
          FileVariant.writable := true |} w).
Proof.
  destruct w as [e m [cj mj dj wr]]. simpl. intros -> -> -> ->. reflexivity.
Qed.

Lemma file_get_conversations (w : World FileVariant.Disk) cs :
  FileVariant.conversations_json (store w) = Some cs ->
  FileVariant.get_conversations w = (inr (json (Conversations cs)), w).
Proof.
  destruct w as [e m [cj mj dj wr]]. simpl. intros ->. reflexivity.
Qed.

(** C2: deleting a conversation answers with success whether or not the
    id exists, leaves no conversation with that id in the listing and no
    chat or debug message of that conversation in the store, and keeps
    everything else.  For the file variant the three documents must be
    readable and the disk writable; for the in-memory variant the world
    is a reachable one and uuidv4 never repeats. *)
Theorem delete_conversation_cascade (id : string) :
  (forall (w : World FileVariant.Disk) cs ms ds,
     FileVariant.conversations_json (store w) = Some cs ->
     FileVariant.messages_json (store w) = Some ms ->
     FileVariant.debug_messages_json (store w) = Some ds ->
     FileVariant.writable (store w) = true ->
     let w' := snd (FileVariant.delete_conversation id w) in
     fst (FileVariant.delete_conversation id w)
       = inr {| status := 200; body := Success |}
     /\ fst (FileVariant.get_conversations w')
        = inr (json (Conversations
                       (filter (fun conv => Conversation.id conv ≠ id) cs)))
     /\ (id ∉ map Conversation.id
                (filter (fun conv => Conversation.id conv ≠ id) cs))
     /\ FileVariant.messages_json (store w') = Some (without_conversation id ms)
     /\ FileVariant.debug_messages_json (store w')
        = Some (without_conversation id ds)
     /\ (forall arr msg, msg ∈ without_conversation id arr
           <-> msg ∈ arr /\ Message.conversation_id msg ≠ Some id)
     /\ (id ∉ map Conversation.id cs ->
         FileVariant.conversations_json (store w') = Some cs))
  /\ (forall w : World MemoryVariant.Memory,
     MemoryVariant.reachable w ->
     Inj (=) (=) (uuid_source (env w)) ->
     let w' := snd (MemoryVariant.delete_conversation id w) in
     fst (MemoryVariant.delete_conversation id w)
       = inr {| status := 200; body := Success |}
     /\ fst (MemoryVariant.get_conversations w')
        = inr (json (Conversations
                       (filter (fun conv => Conversation.id conv ≠ id)
                          (MemoryVariant.CONVERSATIONS (store w)))))
     /\ (id ∉ map Conversation.id (MemoryVariant.CONVERSATIONS (store w')))
     /\ MemoryVariant.MESSAGES (store w')
        = without_conversation id (MemoryVariant.MESSAGES (store w))
     /\ MemoryVariant.DEBUG_MESSAGES (store w')
        = without_conversation id (MemoryVariant.DEBUG_MESSAGES (store w)))
  /\ (forall w : World MemoryVariant.Memory,
     id ∉ map Conversation.id (MemoryVariant.CONVERSATIONS (store w)) ->
     fst (MemoryVariant.delete_conversation id w)
       = inr {| status := 200; body := Success |}
     /\ MemoryVariant.CONVERSATIONS
          (store (snd (MemoryVariant.delete_conversation id w)))
        = MemoryVariant.CONVERSATIONS (store w)).
Proof.
  assert (forall cs : list Conversation.t,
            id ∉ map Conversation.id
                   (filter (fun conv => Conversation.id conv ≠ id) cs)) as Hgone.
  { intros cs Hin. apply list_elem_of_fmap in Hin as (c & Hc & Hin).
    apply list_elem_of_filter in Hin as [Hne _]. congruence. }
  split; [|split].
  - intros w cs ms ds Hc Hm Hd Hw w'. subst w'.
    rewrite (file_delete_conversation id w cs ms ds) by assumption.
    split; [reflexivity|]. split; [reflexivity|]. split; [apply Hgone|].
    split; [reflexivity|]. split; [reflexivity|].
    split; [intros arr msg; apply without_conversation_spec|].
    intros Hid. simpl. f_equal. apply filter_all. apply Forall_forall.
    intros c Hc' Heq. apply Hid. apply list_elem_of_fmap. eauto.
  - intros w Hreach Hinj w'. subst w'.
    apply memory_reachable_invariant in Hreach as (_ & _ & _ & Hids).
    apply (drawn_in_order_NoDup _ _ _ _ Hinj) in Hids.
    simpl. rewrite !splice_loop_filter, (remove_conversation_filter id _ Hids).
    split; [reflexivity|]. split; [reflexivity|]. split; [apply Hgone|].
    split; reflexivity.
  - intros w Hid. simpl. rewrite (remove_conversation_absent id _ Hid).
    split; reflexivity.
Qed.

Lemma Number_toString_inj a b :
  0 <= a -> 0 <= b -> JS.Number_toString a = JS.Number_toString b -> a = b.
Proof.
  intros Ha Hb Heq.
  pose proof (parseInt_Number_toString a Ha) as Hpa.
  rewrite Heq, (parseInt_Number_toString b Hb) in Hpa. congruence.
Qed.

Lemma sample_uuid_inj : Inj (=) (=) sample_uuid.
Proof.
  intros a b Heq. unfold sample_uuid in Heq. simpl in Heq.
  injection Heq as Heq. apply Number_toString_inj in Heq; lia.
Qed.

Lemma busy_memory_reachable : MemoryVariant.reachable busy_memory.
Proof. repeat apply MemoryVariant.reachable_step. constructor. Qed.

Lemma delete_conversation_cascade_witness :
  (fst (FileVariant.delete_conversation "c1"
          (sample_world (replying "Hi there") busy_disk))
   = inr {| status := 200; body := Success |}
   /\ FileVariant.debug_messages_json
        (store (snd (FileVariant.delete_conversation "c1"
                       (sample_world (replying "Hi there") busy_disk))))
      = Some [])
  /\ ("uuid-0" ∉ map Conversation.id
        (MemoryVariant.CONVERSATIONS
           (store (snd (MemoryVariant.delete_conversation "uuid-0" busy_memory)))))
  /\ fst (MemoryVariant.delete_conversation "nobody"
            (MemoryVariant.initial (sample_env (replying "Hi there"))))
     = inr {| status := 200; body := Success |}.
Proof.
  split; [|split].
  - destruct (proj1 (delete_conversation_cascade "c1")
                (sample_world (replying "Hi there") busy_disk) _ _ _
                eq_refl eq_refl eq_refl eq_refl)
      as (Hr & _ & _ & _ & Hd & _ & _).
    split; [exact Hr | exact Hd].
  - destruct (proj1 (proj2 (delete_conversation_cascade "uuid-0"))
                busy_memory busy_memory_reachable sample_uuid_inj)
      as (_ & _ & Hgone & _).
    exact Hgone.
  - refine (proj1 (proj2 (proj2 (delete_conversation_cascade "nobody"))
                     (MemoryVariant.initial (sample_env (replying "Hi there")))
                     _)).
    simpl. apply not_elem_of_nil.
Defined.

(** ** The file variant: what a request does to the world *)

Lemma file_post_chat_world req (w : World FileVariant.Disk) msgs :
  FileVariant.messages_json (store w) = Some msgs ->
  let w' := snd (FileVariant.post_chat req w) in
  w' = sent req w
  \/ exists reply,
       w' = {| env := after_clock (after_clock (after_uuid (after_uuid
                        (env (sent req w)))));
               currentModel := currentModel w;
               store :=
                 if FileVariant.writable (store w)
                 then FileVariant.overwrite FileVariant.MESSAGES_FILE (store w)
                   (msgs ++
                    [user_record (uuid_source (env w) (uuid_calls (env w))) req
                       (clock (env w) (clock_reads (env w)));
                     assistant_record
                       (uuid_source (env w) (S (uuid_calls (env w)))) req reply
                       (clock (env w) (S (clock_reads (env w))))])
                 else store w |}.
Proof.
  intros Hm w'. subst w'. unfold FileVariant.post_chat.
  destruct (answer w (completion_request (currentModel w) req))
    as [e|completion] eqn:Hans.
  - left. rewrite (chat_throws _ req w e Hans). apply chat_catch_world.
  - destruct (Completion.choices completion) as [|c rest] eqn:Hc.
    + left. destruct (chat_no_choice FileVariant.save_turn req w completion
                        Hans Hc) as [what ->]. reflexivity.
    + right. exists (Completion.content (Completion.message_of c)).
      rewrite (chat_answered _ req w completion c rest Hans Hc). cbv zeta.
      destruct (FileVariant.writable (store w)) eqn:Hw.
      * rewrite (file_save_turn _ _ _ _ _ msgs) by assumption. reflexivity.
      * rewrite (file_save_turn_read_only _ _ _ _ _ msgs) by assumption.
        reflexivity.
Qed.

Lemma file_invariant_initial e writable :
  FileVariant.invariant (FileVariant.initial e writable).
Proof.
  exists [], [], []. repeat split; constructor.
Qed.

Ltac file_invariant_parts :=
  eexists _, _, _; split; [reflexivity|]; split; [reflexivity|];
  split; [reflexivity|]; split; simpl.

Lemma file_invariant_step r (w : World FileVariant.Disk) :
  FileVariant.invariant w ->
  FileVariant.invariant (snd (FileVariant.handle r w)).
Proof.
  intros (cs & ms & ds & Hc & Hm & Hd & Htime & Hids).
  assert (FileVariant.invariant w) as Hw by (exists cs, ms, ds; auto).
  destruct r as [ | id | id | title | req | message conversationId | | model | id];
    simpl FileVariant.handle.
  - rewrite (file_get_conversations w cs Hc). exact Hw.
  - rewrite (file_get_messages id w ms Hm). exact Hw.
  - destruct w as [e m [cj mj dj wr]]. simpl in *. subst. exact Hw.
  - (* POST /api/conversations *)
    destruct w as [e m [cj mj dj wr]]. simpl in *. subst.
    destruct wr; file_invariant_parts.
    + eapply drawn_in_order_mono; [|exact Htime]. lia.
    + apply drawn_in_order_snoc; [reflexivity | exact Hids].
    + eapply drawn_in_order_mono; [|exact Htime]. lia.
    + eapply drawn_in_order_mono; [|exact Hids]. lia.
  - (* POST /api/chat *)
    destruct (file_post_chat_world req w ms Hm) as [-> | [reply ->]].
    + exact Hw.
    + destruct w as [e m [cj mj dj wr]]. simpl in *. subst.
      destruct wr; file_invariant_parts.
      * change (ms ++ [?u; ?a]) with (ms ++ [u] ++ [a]).
        rewrite app_assoc.
        apply drawn_in_order_snoc; [reflexivity|].
        apply drawn_in_order_snoc; [reflexivity | exact Htime].
      * eapply drawn_in_order_mono; [|exact Hids]. lia.
      * eapply drawn_in_order_mono; [|exact Htime]. lia.
      * eapply drawn_in_order_mono; [|exact Hids]. lia.
  - (* POST /api/chat/debug *)
    destruct w as [e m [cj mj dj wr]]. simpl in *. subst.
    destruct wr; file_invariant_parts;
      (eapply drawn_in_order_mono; [|eassumption]; lia).
  - exact Hw.
  - (* POST /api/models/select *)
    unfold select_model. destruct (JS.truthy (available_model model)); exact Hw.
  - (* DELETE /api/conversations/:id *)
    destruct w as [e m [cj mj dj wr]]. simpl in *. subst.
    destruct wr; [|exact Hw]. file_invariant_parts.
    + eapply drawn_in_order_sublist; [apply sublist_filter | exact Htime].
    + eapply drawn_in_order_sublist; [apply sublist_filter | exact Hids].
Qed.

Lemma file_reachable_invariant (w : World FileVariant.Disk) :
  FileVariant.reachable w -> FileVariant.invariant w.
Proof.
  induction 1 as [e writable | w r Hw IH].
  - apply file_invariant_initial.
  - apply file_invariant_step, IH.
Qed.

(** C6: the listing of a conversation's messages is exactly the stored
    messages with that conversation id and message type chat, in the order
    of the store, which in a reachable world is the order of creation (the
    order of the clock reads, hence ascending timestamps when the clock does
    not run backwards); debug messages are not among them. *)
Theorem list_messages_chat_only (id : string) :
  (forall (w : World FileVariant.Disk) msgs,
     FileVariant.messages_json (store w) = Some msgs ->
     let l := filter (fun msg => Message.conversation_id msg = Some id
                                 ∧ Message.message_type msg = Some "chat") msgs in
     FileVariant.get_messages id w
       = (inr {| status := 200; body := Messages l |}, w)
     /\ (forall msg, msg ∈ l <->
           msg ∈ msgs /\ Message.conversation_id msg = Some id
           /\ Message.message_type msg = Some "chat")
     /\ l `sublist_of` msgs)
  /\ (forall w : World FileVariant.Disk,
     FileVariant.reachable w ->
     exists l,
       fst (FileVariant.get_messages id w)
         = inr {| status := 200; body := Messages l |}
       /\ drawn_in_order Message.created_at (clock (env w))
            (clock_reads (env w)) l
       /\ forall le : relation string,
            (forall i j, (i <= j)%nat -> le (clock (env w) i) (clock (env w) j)) ->
            StronglySorted
              (fun a b => le (Message.created_at a) (Message.created_at b)) l)
  /\ (forall w : World MemoryVariant.Memory,
     MemoryVariant.reachable w ->
     let l := filter (fun msg => Message.conversation_id msg = Some id)
                (MemoryVariant.MESSAGES (store w)) in
     MemoryVariant.get_messages id w
       = (inr {| status := 200; body := Messages l |}, w)
     /\ (forall msg, msg ∈ l <->
           msg ∈ MemoryVariant.MESSAGES (store w)
           /\ Message.conversation_id msg = Some id
           /\ Message.message_type msg = Some "chat")
     /\ l `sublist_of` MemoryVariant.MESSAGES (store w)
     /\ (forall msg, msg ∈ MemoryVariant.DEBUG_MESSAGES (store w) -> msg ∉ l)
     /\ drawn_in_order Message.created_at (clock (env w))
          (clock_reads (env w)) l
     /\ forall le : relation string,
          (forall i j, (i <= j)%nat -> le (clock (env w) i) (clock (env w) j)) ->
          StronglySorted
            (fun a b => le (Message.created_at a) (Message.created_at b)) l).
Proof.
  split; [|split].
  - intros w msgs Hm l. split; [apply file_get_messages, Hm|].
    split; [|apply sublist_filter].
    intros msg. subst l. rewrite list_elem_of_filter. tauto.
  - intros w Hreach.
    apply file_reachable_invariant in Hreach
      as (cs & ms & ds & _ & Hm & _ & Htime & _).
    eexists. rewrite (file_get_messages id w ms Hm). split; [reflexivity|].
    assert (drawn_in_order Message.created_at (clock (env w))
              (clock_reads (env w))
              (filter (fun msg => Message.conversation_id msg = Some id
                                  ∧ Message.message_type msg = Some "chat") ms))
      as Hl by (eapply drawn_in_order_sublist; [apply sublist_filter|exact Htime]).
    split; [exact Hl|]. intros le Hmono.
    eapply drawn_in_order_sorted; eassumption.
  - intros w Hreach l.
    apply memory_reachable_invariant in Hreach as (Hchat & Hdebug & Htime & _).
    assert (drawn_in_order Message.created_at (clock (env w))
              (clock_reads (env w)) l) as Hl
      by (eapply drawn_in_order_sublist; [apply sublist_filter|exact Htime]).
    rewrite Forall_forall in Hchat, Hdebug.
    split; [reflexivity|]. split; [|split; [apply sublist_filter|split; [|split]]].
    + intros msg. subst l. rewrite list_elem_of_filter.
      split; [intros [Hid Hin] | tauto]. auto.
    + intros msg Hd Hin. subst l. apply list_elem_of_filter in Hin as [_ Hin].
      specialize (Hchat msg Hin). specialize (Hdebug msg Hd). congruence.
    + exact Hl.
    + intros le Hmono. eapply drawn_in_order_sorted; eassumption.
Qed.

Lemma list_messages_chat_only_witness :
  FileVariant.get_messages "c1" (sample_world (replying "Hi there") busy_disk)
  = (inr {| status := 200;
            body := Messages
                      [Message.mk "m1" (Some "c1") "user" (Some "Hello")
                         "2024-05-01T09:01:00.000Z" (Some "chat");
                       Message.mk "m3" (Some "c1") "assistant" (Some "Hi")
                         "2024-05-01T09:01:02.000Z" (Some "chat")] |},
     sample_world (replying "Hi there") busy_disk)
  /\ fst (MemoryVariant.get_messages "uuid-0" busy_memory)
     = inr {| status := 200;
              body := Messages (MemoryVariant.MESSAGES (store busy_memory)) |}.
Proof.
  split.
  - refine (proj1 (proj1 (list_messages_chat_only "c1")
                     (sample_world (replying "Hi there") busy_disk) _ eq_refl)).
  - pose proof (proj1 (proj2 (proj2 (list_messages_chat_only "uuid-0"))
                         busy_memory busy_memory_reachable)) as H.
    rewrite H. reflexivity.
Defined.

(** ** Creating a conversation *)

Lemma drawn_next_fresh {A} (key : A -> string) (source : nat -> string) n l :
  Inj (=) (=) source -> drawn_in_order key source n l ->
  source n ∉ map key l.
Proof.
  intros Hinj [Hall _] Hin. apply list_elem_of_fmap in Hin as (x & Hx & Hin).
  rewrite Forall_forall in Hall. destruct (Hall x Hin) as (k & Hk & Hkx).
  rewrite Hkx in Hx. apply Hinj in Hx. lia.
Qed.

Lemma insert_desc_perm row sorted :
  SqliteVariant.insert_desc row sorted ≡ₚ row :: sorted.
Proof.
  induction sorted as [|r rest IH]; simpl; [reflexivity|].
  destruct (SqliteVariant.created_le row r); [|reflexivity].
  rewrite IH. apply Permutation_swap.
Qed.

Lemma order_by_created_at_desc_perm rows :
  SqliteVariant.order_by_created_at_desc rows ≡ₚ rows.
Proof.
  unfold SqliteVariant.order_by_created_at_desc.
  induction rows as [|r rest IH]; simpl; [reflexivity|].
  rewrite insert_desc_perm, IH. reflexivity.
Qed.

Lemma file_post_conversations title (w : World FileVariant.Disk) cs :
  FileVariant.conversations_json (store w) = Some cs ->
  FileVariant.writable (store w) = true ->
  let c := Conversation.mk (uuid_source (env w) (uuid_calls (env w))) title
             (Some (clock (env w) (clock_reads (env w)))) in
  FileVariant.post_conversations title w
  = (inr (json (ConversationBody c)),
     {| env := after_clock (after_uuid (env w));
        currentModel := currentModel w;
        store := FileVariant.overwrite FileVariant.CONVERSATIONS_FILE (store w)
                   (cs ++ [c]) |}).
Proof.
  destruct w as [e m [cj mj dj wr]]. simpl. intros -> ->. reflexivity.
Qed.

Lemma sqlite_post_conversations title (w : World SqliteVariant.Database) :
  uuid_source (env w) (uuid_calls (env w))
    ∉ map Conversation.id (SqliteVariant.conversations (store w)) ->
  let id := uuid_source (env w) (uuid_calls (env w)) in
  let row := Conversation.mk id title (Some (clock (env w) (clock_reads (env w)))) in
  SqliteVariant.post_conversations title w
  = (inr (json (ConversationBody (Conversation.mk id title None))),
     {| env := after_clock (after_uuid (env w));
        currentModel := currentModel w;
        store := {| SqliteVariant.conversations :=
                      SqliteVariant.conversations (store w) ++ [row] |} |}).
Proof.
  intros Hfresh. unfold SqliteVariant.post_conversations, mbind, M_bind.
  simpl. rewrite bool_decide_eq_false_2 by exact Hfresh. reflexivity.
Qed.

(** A primary-key conflict: a 500, and the table as it was. *)
Lemma sqlite_post_conversations_conflict title (w : World SqliteVariant.Database) :
  uuid_source (env w) (uuid_calls (env w))
    ∈ map Conversation.id (SqliteVariant.conversations (store w)) ->
  fst (SqliteVariant.post_conversations title w)
    = inr (status_json 500 (Failure "Failed to create conversation"))
  /\ store (snd (SqliteVariant.post_conversations title w)) = store w.
Proof.
  intros Hused. unfold SqliteVariant.post_conversations, mbind, M_bind.
  simpl. rewrite bool_decide_eq_true_2 by exact Hused. split; reflexivity.
Qed.

(** C8, as the code has it.  The file variant returns and persists
    [{id, title, created_at}] with the id uuidv4 returned, the supplied
    title and the clock's time; the SQLite variant persists such a row and
    returns [{id, title}]; the in-memory variant returns and persists a
    record with the id and the time.  In each the listing that follows
    holds the persisted record, and the id is not one already stored (by
    the primary key in SQLite, and in reachable worlds of the other two
    when uuidv4 never repeats). *)
Theorem create_conversation (title : option string) :
  (forall (w : World FileVariant.Disk) cs,
     FileVariant.conversations_json (store w) = Some cs ->
     FileVariant.writable (store w) = true ->
     let c := Conversation.mk (uuid_source (env w) (uuid_calls (env w))) title
                (Some (clock (env w) (clock_reads (env w)))) in
     let w' := snd (FileVariant.post_conversations title w) in
     fst (FileVariant.post_conversations title w)
       = inr {| status := 200; body := ConversationBody c |}
     /\ FileVariant.conversations_json (store w') = Some (cs ++ [c])
     /\ fst (FileVariant.get_conversations w')
        = inr (json (Conversations (cs ++ [c])))
     /\ c ∈ cs ++ [c])
  /\ (forall w : World FileVariant.Disk,
     FileVariant.reachable w -> Inj (=) (=) (uuid_source (env w)) ->
     exists cs,
       FileVariant.conversations_json (store w) = Some cs
       /\ uuid_source (env w) (uuid_calls (env w)) ∉ map Conversation.id cs)
  /\ (forall w : World SqliteVariant.Database,
     uuid_source (env w) (uuid_calls (env w))
       ∉ map Conversation.id (SqliteVariant.conversations (store w)) ->
     let id := uuid_source (env w) (uuid_calls (env w)) in
     let row := Conversation.mk id title
                  (Some (clock (env w) (clock_reads (env w)))) in
     let w' := snd (SqliteVariant.post_conversations title w) in
     fst (SqliteVariant.post_conversations title w)
       = inr {| status := 200;
                body := ConversationBody (Conversation.mk id title None) |}
     /\ SqliteVariant.conversations (store w')
        = SqliteVariant.conversations (store w) ++ [row]
     /\ exists rows,
          fst (SqliteVariant.get_conversations w') = inr (json (Conversations rows))
          /\ row ∈ rows)
  /\ (forall w : World MemoryVariant.Memory,
     let w' := snd (MemoryVariant.post_conversations title w) in
     exists c,
       fst (MemoryVariant.post_conversations title w)
         = inr {| status := 200; body := ConversationBody c |}
       /\ Conversation.id c = uuid_source (env w) (uuid_calls (env w))
       /\ Conversation.created_at c = Some (clock (env w) (clock_reads (env w)))
       /\ MemoryVariant.CONVERSATIONS (store w')
          = MemoryVariant.CONVERSATIONS (store w) ++ [c]
       /\ fst (MemoryVariant.get_conversations w')
          = inr (json (Conversations (MemoryVariant.CONVERSATIONS (store w) ++ [c]))))
  /\ (forall w : World MemoryVariant.Memory,
     MemoryVariant.reachable w -> Inj (=) (=) (uuid_source (env w)) ->
     uuid_source (env w) (uuid_calls (env w))
       ∉ map Conversation.id (MemoryVariant.CONVERSATIONS (store w))).
Proof.
  split; [|split; [|split; [|split]]].
  - intros w cs Hc Hw c w'. subst w'.
    rewrite (file_post_conversations title w cs Hc Hw). simpl.
    split; [reflexivity|]. split.
    { destruct w as [e m [cj mj dj wr]]. reflexivity. }
    split.
    { destruct w as [e m [cj mj dj wr]]. reflexivity. }
    set_solver.
  - intros w Hreach Hinj.
    apply file_reachable_invariant in Hreach
      as (cs & ms & ds & Hc & _ & _ & _ & Hids).
    exists cs. split; [exact Hc|]. eapply drawn_next_fresh; eassumption.
  - intros w Hfresh id row w'. subst w'.
    rewrite (sqlite_post_conversations title w Hfresh). simpl.
    split; [reflexivity|]. split; [reflexivity|].
    eexists. split; [reflexivity|].
    rewrite order_by_created_at_desc_perm.
    set_solver.
  - intros w w'. eexists. repeat split.
  - intros w Hreach Hinj.
    apply memory_reachable_invariant in Hreach as (_ & _ & _ & Hids).
    eapply drawn_next_fresh; eassumption.
Qed.

Lemma create_conversation_witness :
  fst (FileVariant.post_conversations (Some "Plans")
         (sample_world (replying "Hi there") busy_disk))
  = inr {| status := 200;
           body := ConversationBody
                     (Conversation.mk "uuid-0" (Some "Plans")
                        (Some "2024-05-01T10:00:00.100Z")) |}
  /\ "uuid-4" ∉ map Conversation.id
                  (MemoryVariant.CONVERSATIONS (store busy_memory)).
Proof.
  pose proof (create_conversation (Some "Plans")) as (Hfile & _ & _ & _ & Hmem).
  split.
  - refine (proj1 (Hfile (sample_world (replying "Hi there") busy_disk) _
                     eq_refl eq_refl)).
  - exact (Hmem busy_memory busy_memory_reachable sample_uuid_inj).
Defined.

(** C8 as stated fails: the SQLite variant answers without created_at, and
    the in-memory variant returns and stores a record without the title. *)
Lemma create_conversation_counterexample :
  (exists c,
     fst (SqliteVariant.post_conversations (Some "Plans")
            (sample_world (replying "Hi there") empty_database))
     = inr {| status := 200; body := ConversationBody c |}
     /\ Conversation.created_at c = None)
  /\ (exists c,
     fst (MemoryVariant.post_conversations (Some "Plans")
            (MemoryVariant.initial (sample_env (replying "Hi there"))))
     = inr {| status := 200; body := ConversationBody c |}
     /\ Conversation.title c = None
     /\ MemoryVariant.CONVERSATIONS
          (store (snd (MemoryVariant.post_conversations (Some "Plans")
                         (MemoryVariant.initial
                            (sample_env (replying "Hi there"))))))
        = [c]).
Proof.
  split; eexists; repeat split.
Qed.

(** * Further properties of the handlers *)

(** ** Provider errors other than the rate limit *)

(** X1: a provider error of status 413 is answered with 413 and code
    PAYLOAD_TOO_LARGE, one of status 400 with 400 and code BAD_REQUEST, each
    with its fixed text; nothing is saved. *)
Theorem chat_provider_rejects {St}
    (save : string -> string -> ChatBody.t -> option string -> M St unit)
    (req : ChatBody.t) (w : World St) (e : error) :
  answer w (completion_request (currentModel w) req) = inl e ->
  (error_status e = Some 413 ->
   fst (chat save req w)
   = inr {| status := 413;
            body := FailureCode
                      "File size is too large. Maximum allowed size is 1MB per file."
                      "PAYLOAD_TOO_LARGE" |})
  /\ (error_status e = Some 400 ->
      fst (chat save req w)
      = inr {| status := 400;
               body := FailureCode "Invalid request. Please check your inputs."
                         "BAD_REQUEST" |})
  /\ store (snd (chat save req w)) = store w.
Proof.
  intros Hans. rewrite (chat_throws save req w e Hans).
  split; [|split].
  - intros Hst. unfold chat_catch. rewrite Hst. reflexivity.
  - intros Hst. unfold chat_catch. rewrite Hst. reflexivity.
  - rewrite chat_catch_world. reflexivity.
Qed.

Lemma chat_provider_rejects_witness :
  fst (MemoryVariant.post_chat hello
         (sample_world (failing (Some 413)) sample_memory))
  = inr {| status := 413;
           body := FailureCode
                     "File size is too large. Maximum allowed size is 1MB per file."
                     "PAYLOAD_TOO_LARGE" |}.
Proof.
  refine (proj1 (chat_provider_rejects MemoryVariant.save_turn hello
                   (sample_world (failing (Some 413)) sample_memory)
                   (APIError (Some 413) None) _) _); reflexivity.
Defined.

(** X2: a provider error whose status is none of 429, 413 and 400 (or that
    has no status) is thrown again by the [catch]: the handler sends no
    response, and the world is the one in which the request was sent,
    with the store as before. *)
Theorem chat_other_error_rethrown {St}
    (save : string -> string -> ChatBody.t -> option string -> M St unit)
    (req : ChatBody.t) (w : World St) (e : error) :
  answer w (completion_request (currentModel w) req) = inl e ->
  error_status e <> Some 429 ->
  error_status e <> Some 413 ->
  error_status e <> Some 400 ->
  chat save req w = (inl e, sent req w)
  /\ store (snd (chat save req w)) = store w.
Proof.
  intros Hans H429 H413 H400. rewrite (chat_throws save req w e Hans).
  unfold chat_catch. rewrite !bool_decide_eq_false_2 by assumption.
  split; reflexivity.
Qed.

Lemma chat_other_error_rethrown_witness :
  FileVariant.post_chat hello (sample_world (failing (Some 503)) busy_disk)
  = (inl (APIError (Some 503) None),
     sent hello (sample_world (failing (Some 503)) busy_disk)).
Proof.
  refine (proj1 (chat_other_error_rethrown FileVariant.save_turn hello
                   (sample_world (failing (Some 503)) busy_disk)
                   (APIError (Some 503) None) _ _ _ _));
    [reflexivity | discriminate ..].
Defined.

(** X3: a completion without any choice makes [completion.choices[0].message]
    throw a TypeError, which the [catch] throws again: no response, nothing
    saved, no id drawn, in the file and in the in-memory variant. *)
Theorem chat_empty_choices (req : ChatBody.t) (completion : Completion.t) :
  Completion.choices completion = [] ->
  (forall w : World FileVariant.Disk,
     answer w (completion_request (currentModel w) req) = inr completion ->
     exists what,
       FileVariant.post_chat req w = (inl (TypeError what), sent req w))
  /\ (forall w : World MemoryVariant.Memory,
     answer w (completion_request (currentModel w) req) = inr completion ->
     exists what,
       MemoryVariant.post_chat req w = (inl (TypeError what), sent req w)).
Proof.
  intros Hc. split; intros w Hans.
  - exact (chat_no_choice FileVariant.save_turn req w completion Hans Hc).
  - exact (chat_no_choice MemoryVariant.save_turn req w completion Hans Hc).
Qed.

Lemma chat_empty_choices_witness :
  exists what,
    MemoryVariant.post_chat hello (sample_world speechless sample_memory)
    = (inl (TypeError what), sent hello (sample_world speechless sample_memory)).
Proof.
  refine (proj2 (chat_empty_choices hello {| Completion.choices := [] |} _)
            (sample_world speechless sample_memory) _); reflexivity.
Defined.

(** ** The file variant when a document does not read or the disk refuses
    writes *)

(** X4: when the provider answers but messages.json does not read, the
    chat handler throws the TypeError again: no response is sent and
    nothing is saved, although the request was sent and two ids drawn. *)
Theorem file_chat_unreadable (req : ChatBody.t) (w : World FileVariant.Disk)
    completion c rest :
  answer w (completion_request (currentModel w) req) = inr completion ->
  Completion.choices completion = c :: rest ->
  FileVariant.messages_json (store w) = None ->
  let w' := snd (FileVariant.post_chat req w) in
  (exists what, fst (FileVariant.post_chat req w) = inl (TypeError what))
  /\ store w' = store w
  /\ api_calls (env w')
     = api_calls (env w) ++ [completion_request (currentModel w) req]
  /\ uuid_calls (env w') = S (S (uuid_calls (env w)))
  /\ clock_reads (env w') = clock_reads (env w).
Proof.
  intros Hans Hc Hm w'. subst w'. unfold FileVariant.post_chat.
  rewrite (chat_answered _ req w completion c rest Hans Hc). cbv zeta.
  match goal with |- context [FileVariant.save_turn ?a ?b ?r ?p ?w0] =>
    destruct (file_save_turn_unreadable a b r p w0 Hm) as [what ->] end.
  rewrite chat_catch_rethrows. simpl.
  split; [eexists; reflexivity|]. repeat split.
Qed.

Lemma file_chat_unreadable_witness :
  store (snd (FileVariant.post_chat hello
                (sample_world (replying "Hi there") broken_disk)))
  = broken_disk.
Proof.
  refine (proj1 (proj2 (file_chat_unreadable hello
                          (sample_world (replying "Hi there") broken_disk)
                          {| Completion.choices := [choice_of "Hi there"] |}
                          (choice_of "Hi there") [] _ _ _)));
    reflexivity.
Defined.

(** Every way a chat request can leave the file variant's world. *)
Lemma file_post_chat_outcomes req (w : World FileVariant.Disk) :
  let w' := snd (FileVariant.post_chat req w) in
  w' = sent req w
  \/ (FileVariant.messages_json (store w) = None
      /\ w' = with_env (after_uuid (after_uuid (env (sent req w)))) w)
  \/ exists msgs reply,
       FileVariant.messages_json (store w) = Some msgs
       /\ w' = {| env := after_clock (after_clock (after_uuid (after_uuid
                           (env (sent req w)))));
                  currentModel := currentModel w;
                  store :=
                    if FileVariant.writable (store w)
                    then FileVariant.overwrite FileVariant.MESSAGES_FILE (store w)
                           (msgs ++ [user_of_turn req w;
                                     assistant_of_turn req w reply])
                    else store w |}.
Proof.
  intros w'. subst w'.
  destruct (FileVariant.messages_json (store w)) as [msgs|] eqn:Hm.
  - destruct (file_post_chat_world req w msgs Hm) as [H | [reply H]].
    + left. exact H.
    + right. right. exists msgs, reply. split; [reflexivity | exact H].
  - unfold FileVariant.post_chat.
    destruct (answer w (completion_request (currentModel w) req))
      as [e|completion] eqn:Hans.
    + left. rewrite (chat_throws _ req w e Hans). apply chat_catch_world.
    + destruct (Completion.choices completion) as [|c rest] eqn:Hc.
      * left. destruct (chat_no_choice FileVariant.save_turn req w completion
                          Hans Hc) as [what ->]. reflexivity.
      * right. left. split; [reflexivity|].
        rewrite (chat_answered _ req w completion c rest Hans Hc). cbv zeta.
        match goal with |- context [FileVariant.save_turn ?a ?b ?r ?p ?w0] =>
          destruct (file_save_turn_unreadable a b r p w0 Hm) as [what ->] end.
        rewrite chat_catch_rethrows. reflexivity.
Qed.

(** X5: on a disk that refuses writes no request changes any document,
    yet the handlers answer as if they had saved: creating a conversation
    returns the new record, which the next listing does not show; a chat
    turn returns the reply; a deletion reports success. *)
Theorem file_read_only_disk (w : World FileVariant.Disk) :
  FileVariant.writable (store w) = false ->
  (forall r, store (snd (FileVariant.handle r w)) = store w)
  /\ (forall title cs,
        FileVariant.conversations_json (store w) = Some cs ->
        fst (FileVariant.post_conversations title w)
        = inr {| status := 200;
                 body := ConversationBody
                           (Conversation.mk
                              (uuid_source (env w) (uuid_calls (env w))) title
                              (Some (clock (env w) (clock_reads (env w))))) |}
        /\ fst (FileVariant.get_conversations
                  (snd (FileVariant.post_conversations title w)))
           = inr {| status := 200; body := Conversations cs |})
  /\ (forall req completion c rest msgs,
        answer w (completion_request (currentModel w) req) = inr completion ->
        Completion.choices completion = c :: rest ->
        FileVariant.messages_json (store w) = Some msgs ->
        fst (FileVariant.post_chat req w)
        = inr {| status := 200;
                 body := ChatReply (Completion.content (Completion.message_of c))
                           (ChatBody.conversationId req) |})
  /\ (forall id cs ms ds,
        FileVariant.conversations_json (store w) = Some cs ->
        FileVariant.messages_json (store w) = Some ms ->
        FileVariant.debug_messages_json (store w) = Some ds ->
        fst (FileVariant.delete_conversation id w)
        = inr {| status := 200; body := Success |}).
Proof.
  intros Hw. split; [|split; [|split]].
  - intros r. destruct r as [ | id | id | title | req | message conversationId
                              | | model | id]; simpl FileVariant.handle.
    5: { destruct (file_post_chat_outcomes req w)
           as [-> | [[_ ->] | (msgs & reply & _ & ->)]];
           [reflexivity | reflexivity | simpl; rewrite Hw; reflexivity]. }
    7: { unfold select_model.
         destruct (JS.truthy (available_model model)); reflexivity. }
    all: destruct w as [e m [[cs|] [ms|] [ds|] wr]]; simpl in Hw; subst wr;
      reflexivity.
  - intros title cs Hc.
    destruct w as [e m [cj mj dj wr]]. simpl in *. subst. split; reflexivity.
  - intros req completion c rest msgs Hans Hc Hm.
    unfold FileVariant.post_chat.
    rewrite (chat_answered _ req w completion c rest Hans Hc). cbv zeta.
    rewrite (file_save_turn_read_only _ _ _ _ _ msgs) by assumption.
    reflexivity.
  - intros id cs ms ds Hc Hm Hd.
    destruct w as [e m [cj mj dj wr]]. simpl in *. subst. reflexivity.
Qed.

Lemma file_read_only_disk_witness :
  store (snd (FileVariant.handle (DELETE_conversation "c1")
                (sample_world (replying "Hi there") read_only_disk)))
  = read_only_disk
  /\ fst (FileVariant.delete_conversation "c1"
            (sample_world (replying "Hi there") read_only_disk))
     = inr {| status := 200; body := Success |}.
Proof.
  pose proof (file_read_only_disk
                (sample_world (replying "Hi there") read_only_disk) eq_refl)
    as (Hstore & _ & _ & Hdel).
  split.
  - exact (Hstore (DELETE_conversation "c1")).
  - exact (Hdel "c1" _ _ _ eq_refl eq_refl eq_refl).
Defined.

(** X6: a listing whose document does not read is answered with status
    500 and the route's own error text, and the world is left as it was. *)
Theorem file_listing_unreadable (w : World FileVariant.Disk) (id : string) :
  (FileVariant.conversations_json (store w) = None ->
   FileVariant.get_conversations w
   = (inr {| status := 500; body := Failure "Failed to get conversations" |}, w))
  /\ (FileVariant.messages_json (store w) = None ->
      FileVariant.get_messages id w
      = (inr {| status := 500; body := Failure "Failed to get messages" |}, w))
  /\ (FileVariant.debug_messages_json (store w) = None ->
      FileVariant.get_debug id w
      = (inr {| status := 500; body := Failure "Failed to get debug messages" |},
         w)).
Proof.
  destruct w as [e m [cj mj dj wr]]. simpl.
  split; [|split]; intros ->; reflexivity.
Qed.

Lemma file_listing_unreadable_witness :
  FileVariant.get_messages "c1" (sample_world (replying "Hi there") broken_disk)
  = (inr {| status := 500; body := Failure "Failed to get messages" |},
     sample_world (replying "Hi there") broken_disk).
Proof.
  refine (proj1 (proj2 (file_listing_unreadable
                          (sample_world (replying "Hi there") broken_disk) "c1"))
            _).
  reflexivity.
Defined.

(** X7: the GET routes only read: whatever they answer, documents readable
    or not, the world after them is the world before, in the file and in
    the in-memory variant. *)
Theorem get_routes_read_only (r : Request) :
  is_GET r = true ->
  (forall w : World FileVariant.Disk, snd (FileVariant.handle r w) = w)
  /\ (forall w : World MemoryVariant.Memory, snd (MemoryVariant.handle r w) = w).
Proof.
  intros Hr. destruct r; try discriminate Hr; split; intros w;
    try reflexivity; destruct w as [e m [[cs|] [ms|] [ds|] wr]]; reflexivity.
Qed.

Lemma get_routes_read_only_witness :
  snd (FileVariant.handle (GET_messages "c1")
         (sample_world (replying "Hi there") busy_disk))
  = sample_world (replying "Hi there") busy_disk.
Proof.
  refine (proj1 (get_routes_read_only (GET_messages "c1") _) _). reflexivity.
Defined.

(** ** What a route leaves alone *)

(** X8: [currentModel] is assigned by POST /api/models/select only: after
    any other request, whatever its outcome, it is what it was. *)
Theorem current_model_kept (r : Request) :
  is_POST_models_select r = false ->
  (forall w : World FileVariant.Disk,
     currentModel (snd (FileVariant.handle r w)) = currentModel w)
  /\ (forall w : World MemoryVariant.Memory,
     currentModel (snd (MemoryVariant.handle r w)) = currentModel w).
Proof.
  intros Hr. destruct r as [ | id | id | title | req | message conversationId
                            | | model | id]; try discriminate Hr; split; intros w;
    simpl FileVariant.handle; simpl MemoryVariant.handle.
  9: { destruct (file_post_chat_outcomes req w)
         as [-> | [[_ ->] | (msgs & reply & _ & ->)]]; reflexivity. }
  9: { destruct (memory_post_chat_world req w) as [-> | [reply ->]];
         reflexivity. }
  all: try reflexivity.
  all: destruct w as [e m [[cs|] [ms|] [ds|] [|]]]; reflexivity.
Qed.

Lemma current_model_kept_witness :
  currentModel (snd (FileVariant.handle (POST_chat hello)
                       (sample_world (replying "Hi there") busy_disk)))
  = default_model.
Proof.
  refine (proj1 (current_model_kept (POST_chat hello) _) _). reflexivity.
Defined.

(** X9: the provider is called by POST /api/chat only: after any other
    request the log of completion requests is what it was. *)
Theorem provider_called_by_chat_only (r : Request) :
  is_POST_chat r = false ->
  (forall w : World FileVariant.Disk,
     api_calls (env (snd (FileVariant.handle r w))) = api_calls (env w))
  /\ (forall w : World MemoryVariant.Memory,
     api_calls (env (snd (MemoryVariant.handle r w))) = api_calls (env w)).
Proof.
  intros Hr. destruct r as [ | id | id | title | req | message conversationId
                            | | model | id]; try discriminate Hr; split; intros w;
    simpl FileVariant.handle; simpl MemoryVariant.handle.
  all: try (unfold select_model; destruct (JS.truthy (available_model model)));
    try reflexivity.
  all: destruct w as [e m [[cs|] [ms|] [ds|] [|]]]; reflexivity.
Qed.

Lemma provider_called_by_chat_only_witness :
  api_calls (env (snd (MemoryVariant.handle (DELETE_conversation "uuid-0")
                         busy_memory)))
  = api_calls (env busy_memory).
Proof.
  refine (proj2 (provider_called_by_chat_only (DELETE_conversation "uuid-0") _)
            busy_memory).
  reflexivity.
Defined.

(** ** Model selection, as the handler decides it *)

Lemma Object_prototype_truthy m :
  JS.Object_prototype m = JS.Undefined
  \/ JS.truthy (JS.Object_prototype m) = true.
Proof.
  unfold JS.Object_prototype.
  destruct (String.eqb m "constructor"); [right; reflexivity|].
  destruct (String.eqb m "__proto__"); [right; reflexivity|].
  destruct (existsb _ _); [right | left]; reflexivity.
Qed.

(** X10: the identifiers the selection accepts are exactly the four keys
    of AVAILABLE_MODELS and the property names of Object.prototype: for
    these it answers 200 and [currentModel] becomes [AVAILABLE_MODELS[model]];
    for every other string it answers 400 and the world is as before.  The
    store and the environment are never touched. *)
Theorem select_model_accepted_set {St} (m : string) (w : World St) :
  (m ∈ map fst AVAILABLE_MODELS \/ JS.Object_prototype m <> JS.Undefined ->
   select_model m w
   = (inr {| status := 200; body := ModelSelected (available_model m) |},
      with_model (available_model m) w))
  /\ (m ∉ map fst AVAILABLE_MODELS -> JS.Object_prototype m = JS.Undefined ->
      select_model m w
      = (inr {| status := 400; body := Failure "Invalid model selection" |}, w))
  /\ store (snd (select_model m w)) = store w
  /\ env (snd (select_model m w)) = env w.
Proof.
  split; [|split; [|split]].
  - intros Hm. destruct (decide (m ∈ map fst AVAILABLE_MODELS)) as [Hin|Hout].
    + rewrite (select_model_supported w m Hin), (available_model_own m Hin).
      reflexivity.
    + destruct Hm as [Hin|Hp]; [contradiction|].
      unfold select_model. rewrite (available_model_unknown m Hout).
      destruct (Object_prototype_truthy m) as [Hu|Ht]; [contradiction|].
      rewrite Ht. reflexivity.
  - apply select_model_rejected.
  - unfold select_model. destruct (JS.truthy (available_model m)); reflexivity.
  - unfold select_model. destruct (JS.truthy (available_model m)); reflexivity.
Qed.

Lemma select_model_accepted_set_witness :
  select_model "o1-preview" (sample_world (replying "Hi there") sample_memory)
  = (inr {| status := 200; body := ModelSelected (JS.Str "o1-preview") |},
     with_model (JS.Str "o1-preview")
       (sample_world (replying "Hi there") sample_memory))
  /\ select_model "gpt-3.5"
       (sample_world (replying "Hi there") sample_memory)
     = (inr {| status := 400; body := Failure "Invalid model selection" |},
        sample_world (replying "Hi there") sample_memory).
Proof.
  split.
  - refine (eq_trans
              (proj1 (select_model_accepted_set "o1-preview"
                        (sample_world (replying "Hi there") sample_memory)) _) _).
    + left. simpl. rewrite !elem_of_cons. auto.
    + vm_compute. reflexivity.
  - refine (proj1 (proj2 (select_model_accepted_set "gpt-3.5"
                            (sample_world (replying "Hi there") sample_memory)))
              _ _).
    + simpl. rewrite !elem_of_cons, elem_of_nil.
      intros [H|[H|[H|[H|[]]]]]; discriminate H.
    + reflexivity.
Defined.

(** X11: after a supported identifier has been selected, the next chat
    request is sent to the provider with that identifier as its model. *)
Theorem selected_model_is_used (m : string) (req : ChatBody.t) :
  m ∈ map fst AVAILABLE_MODELS ->
  (forall w : World FileVariant.Disk,
     api_calls (env (snd (FileVariant.post_chat req (snd (select_model m w)))))
     = api_calls (env w) ++
       [{| Prompt.model := JS.Str m; Prompt.messages := build_messages req;
           Prompt.max_tokens := 1000 |}])
  /\ (forall w : World MemoryVariant.Memory,
     api_calls (env (snd (MemoryVariant.post_chat req (snd (select_model m w)))))
     = api_calls (env w) ++
       [{| Prompt.model := JS.Str m; Prompt.messages := build_messages req;
           Prompt.max_tokens := 1000 |}]).
Proof.
  intros Hm. split; intros w; rewrite (select_model_supported w m Hm).
  - apply (chat_api_calls FileVariant.save_turn file_save_turn_log).
  - apply (chat_api_calls MemoryVariant.save_turn).
    intros a b r p w0. rewrite memory_save_turn. reflexivity.
Qed.

Lemma selected_model_is_used_witness :
  api_calls (env (snd (MemoryVariant.post_chat hello
                         (snd (select_model "o1"
                                 (sample_world (replying "Hi there")
                                    sample_memory))))))
  = [] ++ [{| Prompt.model := JS.Str "o1"; Prompt.messages := build_messages hello;
              Prompt.max_tokens := 1000 |}].
Proof.
  refine (proj2 (selected_model_is_used "o1" hello _)
            (sample_world (replying "Hi there") sample_memory)).
  simpl. rewrite !elem_of_cons. auto.
Defined.

(** ** Debug messages *)



(** X13: when the document a writing route of the file variant starts
    from does not read, the route answers 500 with its own error text and
    writes nothing.  The debug route and the deletion leave the world as it
    was; the creation has by then drawn an id and read the clock. *)
Theorem file_writer_unreadable (w : World FileVariant.Disk) :
  (forall title,
     FileVariant.conversations_json (store w) = None ->
     FileVariant.post_conversations title w
     = (inr {| status := 500; body := Failure "Failed to create conversation" |},
        with_env (after_clock (after_uuid (env w))) w))
  /\ (forall message conversationId,
     FileVariant.debug_messages_json (store w) = None ->
     FileVariant.post_chat_debug message conversationId w
     = (inr {| status := 500; body := Failure "Failed to save debug message" |},
        w))
  /\ (forall id,
     FileVariant.conversations_json (store w) = None ->
     FileVariant.delete_conversation id w
     = (inr {| status := 500; body := Failure "Failed to delete conversation" |},
        w)).
Proof.
  destruct w as [e m [cj mj dj wr]]. simpl.
  split; [|split]; intros; subst; reflexivity.
Qed.

Lemma file_writer_unreadable_witness :
  FileVariant.delete_conversation "c1"
    (sample_world (replying "Hi there") broken_disk)
  = (inr {| status := 500; body := Failure "Failed to delete conversation" |},
     sample_world (replying "Hi there") broken_disk).
Proof.
  refine (proj2 (proj2 (file_writer_unreadable
                          (sample_world (replying "Hi there") broken_disk)))
            "c1" _).
  reflexivity.
Defined.

(** X14: the deletion of the file variant is not atomic: when
    conversations.json reads and messages.json does not, the conversation
    is removed and written before the failure, the answer is 500, and the
    debug messages of the conversation stay. *)
Theorem file_delete_partial (id : string) (w : World FileVariant.Disk) cs :
  FileVariant.conversations_json (store w) = Some cs ->
  FileVariant.messages_json (store w) = None ->
  FileVariant.writable (store w) = true ->
  let w' := snd (FileVariant.delete_conversation id w) in
  fst (FileVariant.delete_conversation id w)
    = inr {| status := 500; body := Failure "Failed to delete conversation" |}
  /\ FileVariant.conversations_json (store w')
     = Some (filter (fun conv => Conversation.id conv ≠ id) cs)
  /\ FileVariant.messages_json (store w') = None
  /\ FileVariant.debug_messages_json (store w')
     = FileVariant.debug_messages_json (store w).
Proof.
  destruct w as [e m [cj mj dj wr]]. simpl. intros -> -> ->.
  repeat split.
Qed.

Lemma file_delete_partial_witness :
  FileVariant.conversations_json
    (store (snd (FileVariant.delete_conversation "c1"
                   (sample_world (replying "Hi there") damaged_disk))))
  = Some [Conversation.mk "c2" None (Some "2024-05-01T09:30:00.000Z")]
  /\ FileVariant.debug_messages_json
       (store (snd (FileVariant.delete_conversation "c1"
                      (sample_world (replying "Hi there") damaged_disk))))
     = FileVariant.debug_messages_json damaged_disk.
Proof.
  pose proof (file_delete_partial "c1"
                (sample_world (replying "Hi there") damaged_disk) _
                eq_refl eq_refl eq_refl) as (_ & Hc & _ & Hd).
  split; [exact Hc | exact Hd].
Defined.

(** ** One conversation does not disturb another *)

Lemma file_get_messages_same id (w1 w2 : World FileVariant.Disk) :
  FileVariant.messages_json (store w1) = FileVariant.messages_json (store w2) ->
  fst (FileVariant.get_messages id w1) = fst (FileVariant.get_messages id w2).
Proof.
  destruct w1 as [e1 m1 [cj1 mj1 dj1 wr1]], w2 as [e2 m2 [cj2 mj2 dj2 wr2]].
  simpl. intros ->. destruct mj2; reflexivity.
Qed.

Lemma file_get_debug_same id (w1 w2 : World FileVariant.Disk) :
  FileVariant.debug_messages_json (store w1)
  = FileVariant.debug_messages_json (store w2) ->
  fst (FileVariant.get_debug id w1) = fst (FileVariant.get_debug id w2).
Proof.
  destruct w1 as [e1 m1 [cj1 mj1 dj1 wr1]], w2 as [e2 m2 [cj2 mj2 dj2 wr2]].
  simpl. intros ->. destruct dj2; reflexivity.
Qed.

Lemma file_get_conversations_same (w1 w2 : World FileVariant.Disk) :
  FileVariant.conversations_json (store w1)
  = FileVariant.conversations_json (store w2) ->
  fst (FileVariant.get_conversations w1) = fst (FileVariant.get_conversations w2).
Proof.
  destruct w1 as [e1 m1 [cj1 mj1 dj1 wr1]], w2 as [e2 m2 [cj2 mj2 dj2 wr2]].
  simpl. intros ->. destruct cj2; reflexivity.
Qed.

(** X15: a chat turn, whatever its outcome, leaves the message listing of
    every other conversation, every debug listing and the conversation
    listing as they were. *)
Theorem chat_turn_isolated (req : ChatBody.t) (other : string) :
  ChatBody.conversationId req <> Some other ->
  (forall w : World FileVariant.Disk,
     let w' := snd (FileVariant.post_chat req w) in
     fst (FileVariant.get_messages other w') = fst (FileVariant.get_messages other w)
     /\ (forall id, fst (FileVariant.get_debug id w')
                    = fst (FileVariant.get_debug id w))
     /\ fst (FileVariant.get_conversations w')
        = fst (FileVariant.get_conversations w))
  /\ (forall w : World MemoryVariant.Memory,
     let w' := snd (MemoryVariant.post_chat req w) in
     fst (MemoryVariant.get_messages other w')
       = fst (MemoryVariant.get_messages other w)
     /\ (forall id, fst (MemoryVariant.get_debug id w')
                    = fst (MemoryVariant.get_debug id w))
     /\ fst (MemoryVariant.get_conversations w')
        = fst (MemoryVariant.get_conversations w)).
Proof.
  intros Hother. split.
  - intros w w'. subst w'.
    destruct (file_post_chat_outcomes req w)
      as [-> | [[_ ->] | (msgs & reply & Hm & ->)]].
    + split; [|split]; [apply file_get_messages_same
                       |intros id; apply file_get_debug_same
                       |apply file_get_conversations_same]; reflexivity.
    + split; [|split]; [apply file_get_messages_same
                       |intros id; apply file_get_debug_same
                       |apply file_get_conversations_same]; reflexivity.
    + destruct (FileVariant.writable (store w)) eqn:Hw.
      * split; [|split].
        -- rewrite (file_get_messages other w msgs Hm).
           erewrite file_get_messages by reflexivity. simpl.
           rewrite filter_app, !filter_cons_False, filter_nil, app_nil_r;
             [reflexivity | intros [H _]; exact (Hother H) ..].
        -- intros id. apply file_get_debug_same. reflexivity.
        -- apply file_get_conversations_same. reflexivity.
      * split; [|split].
        -- apply file_get_messages_same. reflexivity.
        -- intros id. apply file_get_debug_same. reflexivity.
        -- apply file_get_conversations_same. reflexivity.
  - intros w w'. subst w'.
    destruct (memory_post_chat_world req w) as [-> | [reply ->]].
    + split; [|split]; reflexivity.
    + split; [|split; reflexivity].
      rewrite !memory_get_messages. simpl.
      rewrite filter_app, !filter_cons_False, filter_nil, app_nil_r;
        [reflexivity | exact Hother ..].
Qed.

Lemma chat_turn_isolated_witness :
  fst (FileVariant.get_messages "c2"
         (snd (FileVariant.post_chat hello
                 (sample_world (replying "Hi there") busy_disk))))
  = fst (FileVariant.get_messages "c2"
           (sample_world (replying "Hi there") busy_disk)).
Proof.
  refine (proj1 (proj1 (chat_turn_isolated hello "c2" _)
                   (sample_world (replying "Hi there") busy_disk))).
  discriminate.
Defined.

(** Every way a deletion can leave the documents of the file variant. *)
Lemma file_delete_documents id (w : World FileVariant.Disk) :
  let w' := snd (FileVariant.delete_conversation id w) in
  (FileVariant.conversations_json (store w')
     = FileVariant.conversations_json (store w)
   \/ exists cs, FileVariant.conversations_json (store w) = Some cs
        /\ FileVariant.conversations_json (store w')
           = Some (filter (fun conv => Conversation.id conv ≠ id) cs))
  /\ (FileVariant.messages_json (store w') = FileVariant.messages_json (store w)
      \/ exists ms, FileVariant.messages_json (store w) = Some ms
           /\ FileVariant.messages_json (store w')
              = Some (without_conversation id ms))
  /\ (FileVariant.debug_messages_json (store w')
        = FileVariant.debug_messages_json (store w)
      \/ exists ds, FileVariant.debug_messages_json (store w) = Some ds
           /\ FileVariant.debug_messages_json (store w')
              = Some (without_conversation id ds)).
Proof.
  destruct w as [e m [[cs|] [ms|] [ds|] [|]]]; simpl;
    repeat split;
    first [left; reflexivity | right; eexists; split; reflexivity].
Qed.

Lemma filter_other_without id other (P : Message.t -> Prop)
    `{forall msg, Decision (P msg)} (arr : list Message.t) :
  id <> other ->
  filter (fun msg => Message.conversation_id msg = Some other ∧ P msg)
    (without_conversation id arr)
  = filter (fun msg => Message.conversation_id msg = Some other ∧ P msg) arr.
Proof.
  intros Hne. unfold without_conversation. apply list_filter_filter_l.
  intros msg [Hc _] Heq. rewrite Hc in Heq. congruence.
Qed.

Lemma filter_other_without' id other (arr : list Message.t) :
  id <> other ->
  filter (fun msg => Message.conversation_id msg = Some other)
    (without_conversation id arr)
  = filter (fun msg => Message.conversation_id msg = Some other) arr.
Proof.
  intros Hne. unfold without_conversation. apply list_filter_filter_l.
  intros msg Hc Heq. rewrite Hc in Heq. congruence.
Qed.

Lemma filter_none {A} (P : A -> Prop) `{forall x, Decision (P x)} (l : list A) :
  Forall (fun x => ~ P x) l -> filter P l = [].
Proof.
  induction 1 as [|x l Hx Hl IH]; [reflexivity|].
  rewrite filter_cons_False by assumption. exact IH.
Qed.

Lemma filter_same_without id (P : Message.t -> Prop)
    `{forall msg, Decision (P msg)} (arr : list Message.t) :
  (forall msg, P msg -> Message.conversation_id msg = Some id) ->
  filter P (without_conversation id arr) = [].
Proof.
  intros HP. apply filter_none. apply Forall_forall. intros msg Hin Hmsg.
  apply without_conversation_spec in Hin as [_ Hne]. auto.
Qed.

Lemma remove_conversation_keeps id (arr : list Conversation.t) c :
  c ∈ arr -> Conversation.id c <> id ->
  c ∈ MemoryVariant.remove_conversation id arr.
Proof.
  intros Hc Hne. unfold MemoryVariant.remove_conversation.
  destruct (list_find _ arr) as [[i x]|] eqn:Hf; [|exact Hc].
  apply list_find_Some in Hf as (Hi & Hx & _).
  rewrite delete_take_drop.
  rewrite <- (take_drop_middle arr i x Hi) in Hc.
  rewrite !elem_of_app, elem_of_cons in Hc. rewrite elem_of_app.
  destruct Hc as [Hc|[->|Hc]]; [left; exact Hc | contradiction | right; exact Hc].
Qed.

(** X16: deleting a conversation, whatever the outcome, leaves the message
    and debug listings of every other conversation as they were, and keeps
    every conversation that has another id. *)
Theorem delete_conversation_isolated (id other : string) :
  id <> other ->
  (forall w : World FileVariant.Disk,
     let w' := snd (FileVariant.delete_conversation id w) in
     fst (FileVariant.get_messages other w') = fst (FileVariant.get_messages other w)
     /\ fst (FileVariant.get_debug other w') = fst (FileVariant.get_debug other w)
     /\ (forall cs c,
           FileVariant.conversations_json (store w) = Some cs ->
           c ∈ cs -> Conversation.id c <> id ->
           exists cs', FileVariant.conversations_json (store w') = Some cs'
                       /\ c ∈ cs'))
  /\ (forall w : World MemoryVariant.Memory,
     let w' := snd (MemoryVariant.delete_conversation id w) in
     fst (MemoryVariant.get_messages other w')
       = fst (MemoryVariant.get_messages other w)
     /\ fst (MemoryVariant.get_debug other w')
        = fst (MemoryVariant.get_debug other w)
     /\ (forall c, c ∈ MemoryVariant.CONVERSATIONS (store w) ->
           Conversation.id c <> id ->
           c ∈ MemoryVariant.CONVERSATIONS (store w'))).
Proof.
  intros Hne. split.
  - intros w w'. destruct (file_delete_documents id w) as (Hc & Hm & Hd).
    fold w' in Hc, Hm, Hd. split; [|split].
    + destruct Hm as [Hm | (ms & Hm & Hm')].
      * apply file_get_messages_same, Hm.
      * rewrite (file_get_messages other w ms Hm),
          (file_get_messages other w' _ Hm'). simpl.
        rewrite (filter_other_without id other) by exact Hne. reflexivity.
    + destruct Hd as [Hd | (ds & Hd & Hd')].
      * apply file_get_debug_same, Hd.
      * destruct w as [e m [cj mj dj wr]], w' as [e' m' [cj' mj' dj' wr']].
        simpl in Hd, Hd'. subst dj dj'. simpl.
        rewrite (filter_other_without' id other) by exact Hne. reflexivity.
    + intros cs c Hcs Hin Hid. destruct Hc as [Hc | (cs0 & Hc & Hc')].
      * exists cs. rewrite Hc. auto.
      * rewrite Hcs in Hc. injection Hc as <-. eexists. split; [exact Hc'|].
        apply list_elem_of_filter. auto.
  - intros w w'. subst w'. simpl. rewrite !splice_loop_filter.
    split; [|split].
    + rewrite (filter_other_without' id other) by exact Hne. reflexivity.
    + rewrite (filter_other_without' id other) by exact Hne. reflexivity.
    + intros c Hin Hid. apply remove_conversation_keeps; assumption.
Qed.

Lemma delete_conversation_isolated_witness :
  fst (FileVariant.get_messages "c2"
         (snd (FileVariant.delete_conversation "c1"
                 (sample_world (replying "Hi there") busy_disk))))
  = fst (FileVariant.get_messages "c2"
           (sample_world (replying "Hi there") busy_disk)).
Proof.
  refine (proj1 (proj1 (delete_conversation_isolated "c1" "c2" _)
                   (sample_world (replying "Hi there") busy_disk))).
  discriminate.
Defined.

(** X17: in the world a deletion leaves, before any further request, the
    message listing and the debug listing of the deleted id are empty; in
    the file variant this supposes the three documents read and the disk
    accepts writes.  (Nothing keeps a later chat or debug request from
    storing messages under that id again.) *)
Theorem listings_empty_right_after_delete (id : string) :
  (forall (w : World FileVariant.Disk) cs ms ds,
     FileVariant.conversations_json (store w) = Some cs ->
     FileVariant.messages_json (store w) = Some ms ->
     FileVariant.debug_messages_json (store w) = Some ds ->
     FileVariant.writable (store w) = true ->
     let w' := snd (FileVariant.delete_conversation id w) in
     fst (FileVariant.get_messages id w')
       = inr {| status := 200; body := Messages [] |}
     /\ fst (FileVariant.get_debug id w')
        = inr {| status := 200; body := Messages [] |})
  /\ (forall w : World MemoryVariant.Memory,
     let w' := snd (MemoryVariant.delete_conversation id w) in
     fst (MemoryVariant.get_messages id w')
       = inr {| status := 200; body := Messages [] |}
     /\ fst (MemoryVariant.get_debug id w')
        = inr {| status := 200; body := WrappedMessages [] |}).
Proof.
  split.
  - intros w cs ms ds Hc Hm Hd Hw w'. subst w'.
    rewrite (file_delete_conversation id w cs ms ds) by assumption. simpl.
    rewrite !filter_same_without; [split; reflexivity | tauto ..].
  - intros w w'. subst w'. simpl. rewrite !splice_loop_filter.
    rewrite !filter_same_without; [split; reflexivity | tauto ..].
Qed.

Lemma listings_empty_right_after_delete_witness :
  fst (FileVariant.get_messages "c1"
         (snd (FileVariant.delete_conversation "c1"
                 (sample_world (replying "Hi there") busy_disk))))
  = inr {| status := 200; body := Messages [] |}.
Proof.
  refine (proj1 (proj1 (listings_empty_right_after_delete "c1")
                   (sample_world (replying "Hi there") busy_disk) _ _ _
                   eq_refl eq_refl eq_refl eq_refl)).
Defined.

(** ** Deleting twice, and deleting what was just created *)

Lemma filter_twice {A} (P : A -> Prop) `{forall x, Decision (P x)} (l : list A) :
  filter P (filter P l) = filter P l.
Proof. apply list_filter_filter_l. auto. Qed.

Lemma memory_delete_conversation id (w : World MemoryVariant.Memory) :
  MemoryVariant.delete_conversation id w
  = (inr (json Success),
     with_store
       {| MemoryVariant.CONVERSATIONS :=
            MemoryVariant.remove_conversation id
              (MemoryVariant.CONVERSATIONS (store w));
          MemoryVariant.MESSAGES :=
            MemoryVariant.remove_messages_of id (MemoryVariant.MESSAGES (store w));
          MemoryVariant.DEBUG_MESSAGES :=
            MemoryVariant.remove_messages_of id
              (MemoryVariant.DEBUG_MESSAGES (store w)) |} w).
Proof. reflexivity. Qed.

(** X18: deleting the same id a second time gives the answer and the world
    of the first deletion.  In the in-memory variant, where one deletion
    removes one conversation, this supposes pairwise distinct ids. *)
Theorem delete_conversation_twice (id : string) :
  (forall w : World FileVariant.Disk,
     FileVariant.delete_conversation id
       (snd (FileVariant.delete_conversation id w))
     = FileVariant.delete_conversation id w)
  /\ (forall w : World MemoryVariant.Memory,
     NoDup (map Conversation.id (MemoryVariant.CONVERSATIONS (store w))) ->
     MemoryVariant.delete_conversation id
       (snd (MemoryVariant.delete_conversation id w))
     = MemoryVariant.delete_conversation id w).
Proof.
  split.
  - intros w. destruct w as [e m [[cs|] [ms|] [ds|] [|]]];
      unfold FileVariant.delete_conversation, try_catch, mbind, M_bind,
        FileVariant.readJsonFile, FileVariant.writeJsonFile, property,
        with_store; simpl;
      rewrite ?filter_twice; reflexivity.
  - intros w Hnd. rewrite !memory_delete_conversation. simpl.
    rewrite !splice_loop_filter. unfold without_conversation.
    rewrite !filter_twice.
    rewrite (remove_conversation_filter id _ Hnd).
    rewrite remove_conversation_absent; [reflexivity|]. intros Hin.
    apply list_elem_of_fmap in Hin as (c & Hc & Hin).
    apply list_elem_of_filter in Hin as [Hne _]. congruence.
Qed.

Lemma delete_conversation_twice_witness :
  MemoryVariant.delete_conversation "uuid-0"
    (snd (MemoryVariant.delete_conversation "uuid-0" busy_memory))
  = MemoryVariant.delete_conversation "uuid-0" busy_memory.
Proof.
  refine (proj2 (delete_conversation_twice "uuid-0") busy_memory _).
  apply (bool_decide_unpack _). vm_compute. reflexivity.
Defined.

Lemma remove_conversation_last id (arr : list Conversation.t) c :
  id ∉ map Conversation.id arr -> Conversation.id c = id ->
  MemoryVariant.remove_conversation id (arr ++ [c]) = arr.
Proof.
  unfold MemoryVariant.remove_conversation. intros Hid Hc.
  induction arr as [|x l IH]; simpl.
  - rewrite decide_True by exact Hc. reflexivity.
  - simpl in Hid. apply not_elem_of_cons in Hid as [Hx Hl].
    rewrite decide_False by congruence.
    specialize (IH Hl). destruct (list_find _ (l ++ [c])) as [[i y]|]; simpl.
    + f_equal. exact IH.
    + exfalso. apply (f_equal length) in IH. rewrite length_app in IH.
      simpl in IH. lia.
Qed.

(** X19: creating a conversation and then deleting it by the id returned
    gives back the list of conversations there was, provided the id drawn
    was not already in use (and, in the file variant, the document reads
    and the disk accepts writes). *)
Theorem create_then_delete (title : option string) :
  (forall (w : World FileVariant.Disk) cs,
     FileVariant.conversations_json (store w) = Some cs ->
     FileVariant.writable (store w) = true ->
     uuid_source (env w) (uuid_calls (env w)) ∉ map Conversation.id cs ->
     FileVariant.conversations_json
       (store (snd (FileVariant.delete_conversation
                      (uuid_source (env w) (uuid_calls (env w)))
                      (snd (FileVariant.post_conversations title w)))))
     = Some cs)
  /\ (forall w : World MemoryVariant.Memory,
     uuid_source (env w) (uuid_calls (env w))
       ∉ map Conversation.id (MemoryVariant.CONVERSATIONS (store w)) ->
     MemoryVariant.CONVERSATIONS
       (store (snd (MemoryVariant.delete_conversation
                      (uuid_source (env w) (uuid_calls (env w)))
                      (snd (MemoryVariant.post_conversations title w)))))
     = MemoryVariant.CONVERSATIONS (store w)).
Proof.
  split.
  - intros w cs Hc Hw Hfresh.
    rewrite (file_post_conversations title w cs Hc Hw).
    destruct w as [e m [cj [ms|] [ds|] wr]]; simpl in *; subst;
      unfold FileVariant.delete_conversation, try_catch, mbind, M_bind,
        FileVariant.readJsonFile, FileVariant.writeJsonFile, property,
        with_store; simpl;
      rewrite filter_app, filter_cons_False, filter_nil, app_nil_r by auto;
      f_equal; apply filter_all; apply Forall_forall; intros c Hin Heq;
      apply Hfresh; apply list_elem_of_fmap; eauto.
  - intros w Hfresh. simpl. apply remove_conversation_last; [exact Hfresh|].
    reflexivity.
Qed.

Lemma create_then_delete_witness :
  MemoryVariant.CONVERSATIONS
    (store (snd (MemoryVariant.delete_conversation "uuid-4"
                   (snd (MemoryVariant.post_conversations (Some "Plans")
                           busy_memory)))))
  = MemoryVariant.CONVERSATIONS (store busy_memory).
Proof.
  refine (proj2 (create_then_delete (Some "Plans")) busy_memory _).
  apply (bool_decide_unpack _). vm_compute. reflexivity.
Defined.

(** ** Turns and ids in reachable worlds *)

Lemma in_turns_app l1 l2 : in_turns l1 -> in_turns l2 -> in_turns (l1 ++ l2).
Proof.
  intros Hl1 Hl2. induction Hl1; simpl; [exact Hl2|]. constructor; auto.
Qed.

Lemma in_turns_filter (P : Message.t -> Prop) `{forall x, Decision (P x)} l :
  (forall u a, Message.conversation_id u = Message.conversation_id a ->
               Message.message_type u = Message.message_type a ->
               (P u <-> P a)) ->
  in_turns l -> in_turns (filter P l).
Proof.
  intros HP. induction 1 as [|u a rest Hu Ha Hc Htu Hta Hrest IH]; [constructor|].
  assert (P u <-> P a) as Hiff by (apply HP; congruence).
  destruct (decide (P u)) as [Hp|Hp].
  - rewrite filter_cons_True by assumption.
    rewrite filter_cons_True by (apply Hiff; assumption).
    constructor; assumption.
  - rewrite filter_cons_False by assumption.
    rewrite filter_cons_False by (rewrite <- Hiff; assumption).
    exact IH.
Qed.

Lemma in_turns_without id l : in_turns l -> in_turns (without_conversation id l).
Proof.
  apply in_turns_filter. intros u a Hc _. rewrite Hc. tauto.
Qed.

Lemma in_turns_turn req reply id1 id2 t1 t2 :
  in_turns [user_record id1 req t1; assistant_record id2 req reply t2].
Proof. repeat constructor. Qed.

Lemma memory_ids_step r (w : World MemoryVariant.Memory) :
  MemoryIds.invariant w -> MemoryIds.invariant (snd (MemoryVariant.handle r w)).
Proof.
  intros (Hm & Hd & Ht).
  destruct r as [ | id | id | title | req | message conversationId | | model | id];
    simpl MemoryVariant.handle.
  - exact (conj Hm (conj Hd Ht)).
  - exact (conj Hm (conj Hd Ht)).
  - exact (conj Hm (conj Hd Ht)).
  - split; [|split]; simpl; [| |exact Ht];
      (eapply drawn_in_order_mono; [|eassumption]; lia).
  - destruct (memory_post_chat_world req w) as [-> | [reply ->]].
    + exact (conj Hm (conj Hd Ht)).
    + split; [|split]; simpl.
      * change (MemoryVariant.MESSAGES (store w) ++ [?u; ?a])
          with (MemoryVariant.MESSAGES (store w) ++ [u] ++ [a]).
        rewrite app_assoc.
        apply drawn_in_order_snoc; [reflexivity|].
        apply drawn_in_order_snoc; [reflexivity | exact Hm].
      * eapply drawn_in_order_mono; [|exact Hd]. lia.
      * apply in_turns_app; [exact Ht | apply in_turns_turn].
  - split; [|split]; simpl; [| |exact Ht].
    + eapply drawn_in_order_mono; [|exact Hm]. lia.
    + apply drawn_in_order_snoc; [reflexivity | exact Hd].
  - exact (conj Hm (conj Hd Ht)).
  - unfold select_model. destruct (JS.truthy (available_model model));
      exact (conj Hm (conj Hd Ht)).
  - split; [|split]; simpl; rewrite ?splice_loop_filter.
    + eapply drawn_in_order_sublist; [apply sublist_filter | exact Hm].
    + eapply drawn_in_order_sublist; [apply sublist_filter | exact Hd].
    + apply in_turns_without, Ht.
Qed.

Lemma memory_ids_reachable (w : World MemoryVariant.Memory) :
  MemoryVariant.reachable w -> MemoryIds.invariant w.
Proof.
  induction 1 as [e | w r Hw IH].
  - repeat split; constructor.
  - apply memory_ids_step, IH.
Qed.

Ltac file_ids_parts :=
  eexists _, _; split; [reflexivity|]; split; [reflexivity|]; simpl.

Lemma file_ids_step r (w : World FileVariant.Disk) :
  FileVariant.invariant w -> FileIds.invariant w ->
  FileIds.invariant (snd (FileVariant.handle r w)).
Proof.
  intros (cs & ms0 & ds0 & Hc & Hm0 & Hd0 & _ & _)
         (ms & ds & Hm & Hd & Hmi & Hdi).
  assert (FileIds.invariant w) as Hw by (exists ms, ds; auto).
  clear Hm0 Hd0.
  destruct r as [ | id | id | title | req | message conversationId | | model | id];
    simpl FileVariant.handle.
  - rewrite (file_get_conversations w cs Hc). exact Hw.
  - rewrite (file_get_messages id w ms Hm). exact Hw.
  - destruct w as [e m [cj mj dj wr]]. simpl in *. subst. exact Hw.
  - destruct w as [e m [cj mj dj wr]]. simpl in *. subst.
    destruct wr; file_ids_parts; split;
      (eapply drawn_in_order_mono; [|eassumption]; lia).
  - destruct (file_post_chat_world req w ms Hm) as [-> | [reply ->]].
    + exact Hw.
    + destruct w as [e m [cj mj dj wr]]. simpl in *. subst.
      destruct wr; file_ids_parts.
      * split.
        -- change (ms ++ [?u; ?a]) with (ms ++ [u] ++ [a]).
           rewrite app_assoc.
           apply drawn_in_order_snoc; [reflexivity|].
           apply drawn_in_order_snoc; [reflexivity | exact Hmi].
        -- eapply drawn_in_order_mono; [|exact Hdi]. lia.
      * split; (eapply drawn_in_order_mono; [|eassumption]; lia).
  - destruct w as [e m [cj mj dj wr]]. simpl in *. subst.
    destruct wr; file_ids_parts.
    + split.
      * eapply drawn_in_order_mono; [|exact Hmi]. lia.
      * apply drawn_in_order_snoc; [reflexivity | exact Hdi].
    + split; (eapply drawn_in_order_mono; [|eassumption]; lia).
  - exact Hw.
  - unfold select_model. destruct (JS.truthy (available_model model)); exact Hw.
  - destruct w as [e m [cj mj dj wr]]. simpl in *. subst.
    destruct wr; [|exact Hw]. file_ids_parts. split.
    + eapply drawn_in_order_sublist; [apply sublist_filter | exact Hmi].
    + eapply drawn_in_order_sublist; [apply sublist_filter | exact Hdi].
Qed.

Lemma file_ids_reachable (w : World FileVariant.Disk) :
  FileVariant.reachable w -> FileIds.invariant w.
Proof.
  induction 1 as [e writable | w r Hw IH].
  - exists [], []. repeat split; constructor.
  - apply file_ids_step; [apply file_reachable_invariant, Hw | exact IH].
Qed.

Lemma busy_file_reachable : FileVariant.reachable busy_file.
Proof. repeat apply FileVariant.reachable_step. constructor. Qed.

(** X20: in every world the in-memory process can reach, the stored chat
    messages are a sequence of turns, a user message followed by an
    assistant message of the same conversation, and so is the message
    listing of every conversation: the chat handler pushes the two records
    together, and a deletion removes both messages of a turn or neither. *)
Theorem messages_come_in_turns (w : World MemoryVariant.Memory) :
  MemoryVariant.reachable w ->
  in_turns (MemoryVariant.MESSAGES (store w))
  /\ forall id, exists l,
       fst (MemoryVariant.get_messages id w)
         = inr {| status := 200; body := Messages l |}
       /\ in_turns l.
Proof.
  intros Hreach. apply memory_ids_reachable in Hreach as (_ & _ & Ht).
  split; [exact Ht|]. intros id. eexists. split; [reflexivity|].
  apply in_turns_filter; [|exact Ht]. intros u a Hc _. rewrite Hc. tauto.
Qed.

Lemma messages_come_in_turns_witness :
  in_turns (MemoryVariant.MESSAGES (store busy_memory)).
Proof.
  exact (proj1 (messages_come_in_turns busy_memory busy_memory_reachable)).
Defined.

(** X21: when uuidv4 never returns the same value twice, the ids are
    pairwise distinct in every reachable world: among the conversations,
    among the chat messages and among the debug messages. *)
Theorem ids_pairwise_distinct :
  (forall w : World MemoryVariant.Memory,
     MemoryVariant.reachable w -> Inj (=) (=) (uuid_source (env w)) ->
     NoDup (map Conversation.id (MemoryVariant.CONVERSATIONS (store w)))
     /\ NoDup (map Message.id (MemoryVariant.MESSAGES (store w)))
     /\ NoDup (map Message.id (MemoryVariant.DEBUG_MESSAGES (store w))))
  /\ (forall w : World FileVariant.Disk,
     FileVariant.reachable w -> Inj (=) (=) (uuid_source (env w)) ->
     exists cs ms ds,
       FileVariant.conversations_json (store w) = Some cs
       /\ FileVariant.messages_json (store w) = Some ms
       /\ FileVariant.debug_messages_json (store w) = Some ds
       /\ NoDup (map Conversation.id cs)
       /\ NoDup (map Message.id ms)
       /\ NoDup (map Message.id ds)).
Proof.
  split.
  - intros w Hreach Hinj.
    pose proof (memory_reachable_invariant w Hreach) as (_ & _ & _ & Hc).
    pose proof (memory_ids_reachable w Hreach) as (Hm & Hd & _).
    split; [|split]; eapply drawn_in_order_NoDup; eassumption.
  - intros w Hreach Hinj.
    pose proof (file_reachable_invariant w Hreach)
      as (cs & ms & ds & Hc & Hm & Hd & _ & Hci).
    pose proof (file_ids_reachable w Hreach)
      as (ms' & ds' & Hm' & Hd' & Hmi & Hdi).
    rewrite Hm in Hm'. injection Hm' as <-.
    rewrite Hd in Hd'. injection Hd' as <-.
    exists cs, ms, ds. repeat split; try assumption;
      eapply drawn_in_order_NoDup; eassumption.
Qed.

Lemma ids_pairwise_distinct_witness :
  NoDup (map Message.id (MemoryVariant.MESSAGES (store busy_memory)))
  /\ exists cs ms ds,
       FileVariant.conversations_json (store busy_file) = Some cs
       /\ FileVariant.messages_json (store busy_file) = Some ms
       /\ FileVariant.debug_messages_json (store busy_file) = Some ds
       /\ NoDup (map Conversation.id cs)
       /\ NoDup (map Message.id ms)
       /\ NoDup (map Message.id ds).
Proof.
  split.
  - exact (proj1 (proj2 (proj1 ids_pairwise_distinct busy_memory
                           busy_memory_reachable sample_uuid_inj))).
  - exact (proj2 ids_pairwise_distinct busy_file busy_file_reachable
             sample_uuid_inj).
Defined.

(** ** The conversations table of the SQLite variant *)

(** X22: the primary key of the conversations table holds: a creation
    whose id is already in the table is answered with 500 and inserts
    nothing, and the ids of the table stay pairwise distinct. *)
Theorem sqlite_primary_key (title : option string)
    (w : World SqliteVariant.Database) :
  NoDup (map Conversation.id (SqliteVariant.conversations (store w))) ->
  NoDup (map Conversation.id
           (SqliteVariant.conversations
              (store (snd (SqliteVariant.post_conversations title w)))))
  /\ (uuid_source (env w) (uuid_calls (env w))
        ∈ map Conversation.id (SqliteVariant.conversations (store w)) ->
      fst (SqliteVariant.post_conversations title w)
        = inr {| status := 500; body := Failure "Failed to create conversation" |}
      /\ store (snd (SqliteVariant.post_conversations title w)) = store w).
Proof.
  intros Hnd.
  destruct (decide (uuid_source (env w) (uuid_calls (env w))
                      ∈ map Conversation.id
                          (SqliteVariant.conversations (store w)))) as [Hin|Hout].
  - destruct (sqlite_post_conversations_conflict title w Hin) as [Hr Hs].
    split; [rewrite Hs; exact Hnd | auto].
  - split; [|contradiction].
    rewrite (sqlite_post_conversations title w Hout). simpl.
    rewrite map_app. apply NoDup_app. split; [exact Hnd|]. split.
    + intros x Hx Hx'. apply list_elem_of_singleton in Hx'. subst x.
      contradiction.
    + apply NoDup_singleton.
Qed.

Lemma sqlite_primary_key_witness :
  fst (SqliteVariant.post_conversations (Some "Again")
         (sample_world (replying "Hi there") taken_database))
  = inr {| status := 500; body := Failure "Failed to create conversation" |}
  /\ store (snd (SqliteVariant.post_conversations (Some "Again")
                   (sample_world (replying "Hi there") taken_database)))
     = taken_database.
Proof.
  refine (proj2 (sqlite_primary_key (Some "Again")
                   (sample_world (replying "Hi there") taken_database) _) _).
  - apply (bool_decide_unpack _). vm_compute. reflexivity.
  - apply (bool_decide_unpack _). vm_compute. reflexivity.
Defined.

Lemma created_le_total a b :
  SqliteVariant.created_le a b = true \/ SqliteVariant.created_le b a = true.
Proof.
  unfold SqliteVariant.created_le.
  destruct (Conversation.created_at a), (Conversation.created_at b); auto.
  apply String.leb_total.
Qed.

Lemma insert_desc_sorted row sorted :
  Sorted newer_first sorted ->
  Sorted newer_first (SqliteVariant.insert_desc row sorted).
Proof.
  induction 1 as [|r rest Hrest IH Hhd]; simpl.
  - repeat constructor.
  - destruct (SqliteVariant.created_le row r) eqn:Hle.
    + constructor; [exact IH|].
      destruct rest as [|r' rest']; simpl.
      * repeat constructor. exact Hle.
      * destruct (SqliteVariant.created_le row r') eqn:Hle'.
        -- constructor. inversion Hhd. assumption.
        -- constructor. exact Hle.
    + constructor; [constructor; assumption|]. constructor.
      destruct (created_le_total row r) as [H|H]; [congruence | exact H].
Qed.

(** X23: the SQLite listing of conversations holds exactly the rows of the
    table (each as often as the table has it) with the newer created_at
    first, and leaves the world as it was. *)
Theorem sqlite_listing_newest_first (w : World SqliteVariant.Database) :
  exists rows,
    SqliteVariant.get_conversations w
      = (inr {| status := 200; body := Conversations rows |}, w)
    /\ rows ≡ₚ SqliteVariant.conversations (store w)
    /\ Sorted newer_first rows.
Proof.
  eexists. split; [reflexivity|]. split.
  - apply order_by_created_at_desc_perm.
  - unfold SqliteVariant.order_by_created_at_desc.
    induction (SqliteVariant.conversations (store w)) as [|r rest IH]; simpl.
    + constructor.
    + apply insert_desc_sorted, IH.
Qed.

(** ** The data directory at start *)

(** X24: on a disk that accepts writes, [ensureDataFiles] leaves the
    directory in place and every file present: a file that existed, even
    one that does not parse, is left as it is, and a missing one holds an
    empty array.  From nothing it produces the three empty documents the
    handlers of a fresh installation start from. *)
Theorem ensureDataFiles_creates_missing (fs : Startup.Files) :
  Startup.accepts_writes fs = true ->
  let fs' := Startup.ensureDataFiles fs in
  Startup.directory fs' = true
  /\ Startup.accepts_writes fs' = true
  /\ Startup.conversations fs'
     = (if Startup.access (Startup.conversations fs)
        then Startup.conversations fs else Startup.Document [])
  /\ Startup.messages fs'
     = (if Startup.access (Startup.messages fs)
        then Startup.messages fs else Startup.Document [])
  /\ Startup.debug_messages fs'
     = (if Startup.access (Startup.debug_messages fs)
        then Startup.debug_messages fs else Startup.Document [])
  /\ (fs = Startup.nothing true ->
      forall e, {| env := e; currentModel := default_model;
                   store := Startup.disk_of fs' |}
                = FileVariant.initial e true).
Proof.
  intros Hw fs'. subst fs'.
  destruct fs as [d c m g w]. simpl in Hw. subst w.
  split; [|split; [|split; [|split; [|split]]]].
  6: { intros Heq. injection Heq as -> -> -> ->. reflexivity. }
  all: destruct d, c, m, g; reflexivity.
Qed.

Lemma ensureDataFiles_creates_missing_witness :
  Startup.messages (Startup.ensureDataFiles Startup.damaged) = Startup.Garbled
  /\ Startup.debug_messages (Startup.ensureDataFiles Startup.damaged)
     = Startup.Document [].
Proof.
  pose proof (ensureDataFiles_creates_missing Startup.damaged eq_refl)
    as (_ & _ & _ & Hm & Hd & _).
  split; [exact Hm | exact Hd].
Defined.

(** X25: [ensureDataFiles] swallows its errors and is idempotent: on a
    disk that refuses writes it changes nothing, so that a missing
    document stays missing and is read as [null]; and running it a second
    time never changes what the first run left. *)
Theorem ensureDataFiles_idempotent (fs : Startup.Files) :
  Startup.ensureDataFiles (Startup.ensureDataFiles fs)
    = Startup.ensureDataFiles fs
  /\ (Startup.accepts_writes fs = false -> Startup.ensureDataFiles fs = fs)
  /\ (Startup.accepts_writes fs = false ->
      Startup.messages fs = Startup.Absent ->
      FileVariant.messages_json (Startup.disk_of (Startup.ensureDataFiles fs))
        = None).
Proof.
  destruct fs as [d c m g w]. split; [|split].
  - destruct d, c, m, g, w; reflexivity.
  - simpl. intros ->. destruct d, c, m, g; reflexivity.
  - simpl. intros -> ->. destruct d, c, g; reflexivity.
Qed.

Lemma ensureDataFiles_idempotent_witness :
  Startup.ensureDataFiles (Startup.nothing false) = Startup.nothing false.
Proof.
  refine (proj1 (proj2 (ensureDataFiles_idempotent (Startup.nothing false))) _).
  reflexivity.
Defined.

(** ** The messages table of the SQLite variant *)

Lemma insert_asc_perm row sorted :
  SqliteMessages.insert_asc row sorted ≡ₚ row :: sorted.
Proof.
  induction sorted as [|r rest IH]; simpl; [reflexivity|].
  destruct (String.leb _ _); [|reflexivity].
  rewrite IH. apply Permutation_swap.
Qed.

Lemma order_by_created_at_asc_perm rows :
  SqliteMessages.order_by_created_at_asc rows ≡ₚ rows.
Proof.
  unfold SqliteMessages.order_by_created_at_asc.
  induction rows as [|r rest IH]; simpl; [reflexivity|].
  rewrite insert_asc_perm, IH. reflexivity.
Qed.

Lemma insert_asc_sorted row sorted :
  Sorted SqliteMessages.older_first sorted ->
  Sorted SqliteMessages.older_first (SqliteMessages.insert_asc row sorted).
Proof.
  induction 1 as [|r rest Hrest IH Hhd]; simpl.
  - repeat constructor.
  - destruct (String.leb (Message.created_at r) (Message.created_at row)) eqn:Hle.
    + constructor; [exact IH|].
      destruct rest as [|r' rest']; simpl.
      * repeat constructor. exact Hle.
      * destruct (String.leb (Message.created_at r') (Message.created_at row)).
        -- constructor. inversion Hhd. assumption.
        -- constructor. exact Hle.
    + constructor; [constructor; assumption|]. constructor.
      unfold SqliteMessages.older_first.
      destruct (String.leb_total (Message.created_at r) (Message.created_at row))
        as [H|H]; [congruence | exact H].
Qed.

Lemma order_by_created_at_asc_sorted rows :
  Sorted SqliteMessages.older_first (SqliteMessages.order_by_created_at_asc rows).
Proof.
  unfold SqliteMessages.order_by_created_at_asc.
  induction rows as [|r rest IH]; simpl; [constructor|].
  apply insert_asc_sorted, IH.
Qed.

(** X26: in the SQLite variant chat and debug messages share one table,
    and each listing selects by type: the message listing holds exactly
    the rows of the conversation of type chat, the debug listing exactly
    those of type debug, each with the older created_at first, and no row
    is in both. *)
Theorem sqlite_listings_by_type (id : string) (w : World SqliteMessages.Tables) :
  exists chat debug,
    SqliteMessages.get_messages id w
      = (inr {| status := 200; body := Messages chat |}, w)
    /\ SqliteMessages.get_debug id w
       = (inr {| status := 200; body := Messages debug |}, w)
    /\ chat ≡ₚ filter (fun msg => Message.conversation_id msg = Some id
                                  ∧ Message.message_type msg = Some "chat")
                 (SqliteMessages.messages_table (store w))
    /\ debug ≡ₚ filter (fun msg => Message.conversation_id msg = Some id
                                   ∧ Message.message_type msg = Some "debug")
                  (SqliteMessages.messages_table (store w))
    /\ Sorted SqliteMessages.older_first chat
    /\ Sorted SqliteMessages.older_first debug
    /\ (forall msg, msg ∈ chat -> msg ∉ debug).
Proof.
  eexists _, _. split; [reflexivity|]. split; [reflexivity|].
  split; [apply order_by_created_at_asc_perm|].
  split; [apply order_by_created_at_asc_perm|].
  split; [apply order_by_created_at_asc_sorted|].
  split; [apply order_by_created_at_asc_sorted|].
  intros msg Hc Hd. unfold SqliteMessages.select_messages in Hc, Hd.
  rewrite order_by_created_at_asc_perm in Hc, Hd.
  apply list_elem_of_filter in Hc as [[_ Hc] _].
  apply list_elem_of_filter in Hd as [[_ Hd] _].
  rewrite Hc in Hd. discriminate Hd.
Qed.





(** X28: the deletion of the SQLite variant answers success for any id,
    removes the conversation row and every message row of the
    conversation, chat and debug alike; its listings are then empty and
    those of every other conversation are as before. *)
Theorem sqlite_delete_cascade (id : string) (w : World SqliteMessages.Tables) :
  let w' := snd (SqliteMessages.delete_conversation id w) in
  fst (SqliteMessages.delete_conversation id w)
    = inr {| status := 200; body := Success |}
  /\ SqliteVariant.conversations (SqliteMessages.conversations_table (store w'))
     = filter (fun conv => Conversation.id conv ≠ id)
         (SqliteVariant.conversations
            (SqliteMessages.conversations_table (store w)))
  /\ SqliteMessages.messages_table (store w')
     = without_conversation id (SqliteMessages.messages_table (store w))
  /\ fst (SqliteMessages.get_messages id w')
     = inr {| status := 200; body := Messages [] |}
  /\ fst (SqliteMessages.get_debug id w')
     = inr {| status := 200; body := Messages [] |}
  /\ (forall other, id <> other ->
        fst (SqliteMessages.get_messages other w')
          = fst (SqliteMessages.get_messages other w)
        /\ fst (SqliteMessages.get_debug other w')
           = fst (SqliteMessages.get_debug other w)).
Proof.
  intros w'. subst w'. simpl.
  split; [reflexivity|]. split; [reflexivity|]. split; [reflexivity|].
  unfold SqliteMessages.select_messages. simpl.
  fold (without_conversation id (SqliteMessages.messages_table (store w))).
  split; [|split].
  - rewrite filter_same_without by tauto. reflexivity.
  - rewrite filter_same_without by tauto. reflexivity.
  - intros other Hne.
    rewrite !(filter_other_without id other) by exact Hne.
    split; reflexivity.
Qed.

Lemma sqlite_delete_cascade_witness :
  fst (SqliteMessages.get_messages "c1"
         (snd (SqliteMessages.delete_conversation "c2"
                 (sample_world (replying "Hi there") SqliteMessages.busy))))
  = fst (SqliteMessages.get_messages "c1"
           (sample_world (replying "Hi there") SqliteMessages.busy)).
Proof.
  pose proof (sqlite_delete_cascade "c2"
                (sample_world (replying "Hi there") SqliteMessages.busy))
    as (_ & _ & _ & _ & _ & Hother).
  refine (proj1 (Hother "c1" _)). discriminate.
Defined.
